(** * Game_Tracker: the classifier, the session tracker and its persistence

    A shallow embedding of [main.py] (class [GameTracker]) and the
    properties of its specification.

    Modelling conventions.
    - A Python [str] is the list of its Unicode code points ([list N]).
      [lit] turns an ASCII literal of the source into such a list.
    - Python numbers (the [float] instants of [time.time()], the durations,
      the numbers of the JSON document) are exact integers ([Z]), counted in
      seconds; rounding of binary floating point is not modelled. A number
      of the model stands for a number that a [float] can hold: where
      Python has to turn an integer into a [float] ([int + float],
      [int / int]) and the integer is beyond the range of floats it raises
      [OverflowError], which the model has not. The statements on the
      report of [show_stats] and on what a whole run from a backing file
      leaves carry the condition [store_fits], under which no conversion
      of the program overflows.
    - A [dict] is a [gmap]; the document returned by [json.load] keeps the
      order of its members (a list of pairs), because [load_data] walks it
      in that order.
    - The tracker object, the backing file and the terminal are one state
      that every method threads; exceptions are outcomes that keep the state
      reached when they were raised. *)

From Stdlib Require Import ZArith NArith List Ascii String Lia Bool.
From stdpp Require Import base option list strings gmap fin_maps sorting lexico.
From Stdlib Require Import QArith.
Import ListNotations.

#[local] Open Scope Z_scope.
#[local] Set Warnings "-register-all".

(** ** Strings *)

Abbreviation pystr := (list N).

(** An ASCII literal of the source as a list of code points. *)
Fixpoint lit (s : string) : pystr :=
  match s with
  | EmptyString => []
  | String a r => N_of_ascii a :: lit r
  end.

(** [str.lower()] and [str.upper()] map the ASCII letters themselves; for any
    other code point CPython consults the Unicode character database, which
    is not part of the repository: it is an interface of the development.
    (A code point may map to several: U+00DF upper-cases to "SS".) *)
Class UnicodeData := {
  unicode_lower : N → list N;
  unicode_upper : N → list N
}.

Section Classifier.
Context {UD : UnicodeData}.

Definition lower_cp (c : N) : list N :=
  if ((65 <=? c) && (c <=? 90))%N then [(c + 32)%N]
  else if (c <? 128)%N then [c]
  else unicode_lower c.

Definition upper_cp (c : N) : list N :=
  if ((97 <=? c) && (c <=? 122))%N then [(c - 32)%N]
  else if (c <? 128)%N then [c]
  else unicode_upper c.

Definition str_lower (s : pystr) : pystr := flat_map lower_cp s.
Definition str_upper (s : pystr) : pystr := flat_map upper_cp s.

(** [k in s] on strings: [k] occurs in [s] as a contiguous run. *)
Fixpoint starts_with (k s : pystr) : bool :=
  match k, s with
  | [], _ => true
  | _ :: _, [] => false
  | a :: k', b :: s' => (a =? b)%N && starts_with k' s'
  end.

Fixpoint contains (k s : pystr) : bool :=
  starts_with k s ||
  match s with
  | [] => false
  | _ :: s' => contains k s'
  end.

(** [self.game_keywords] (a set: only membership is used). *)
Definition game_keywords : list pystr :=
  map lit
    [ "steam"; "hl2"; "csgo"; "dota"; "fortnite";
      "overwatch"; "valorant"; "league"; "minecraft";
      "battle.net"; "origin"; "ubisoft"; "riot"; "ea";
      "wow"; "diablo"; "elden"; "gta"; "rockstar";
      "warframe"; "destiny"; "apex"; "fallout"; "skyrim" ]%string.

(** [GameTracker.is_game]. [not window_title] holds for [None] and for
    the empty string. *)
Definition is_game (window_title : option pystr) : bool :=
  match window_title with
  | None => false
  | Some [] => false
  | Some t =>
      let window_lower := str_lower t in
      existsb (λ keyword, contains keyword window_lower) game_keywords
  end.

End Classifier.

(** [k] occurs in [s] as a substring. *)
Definition substring (k s : pystr) : Prop := ∃ pre post, s = pre ++ k ++ post.

Definition is_ascii (s : pystr) : Prop := Forall (λ c, (c < 128)%N) s.

(** ** Values, the store and the world around the tracker *)

(** What [json.load] can return (and so what a leaf of the store can hold:
    [load_data] checks nothing about the values it copies). The members of
    an object come in the order of the document; in a value that
    [json.load] returns their keys are distinct, as in every [dict]. *)
Inductive pyval :=
| PNone
| PBool (b : bool)
| PNum (n : Z)
| PStr (s : pystr)
| PList (l : list pyval)
| PDict (members : list (pystr * pyval)).

(** [self.usage]: date, then title, then accumulated seconds. *)
Abbreviation store := (gmap pystr (gmap pystr pyval)).

Inductive exn :=
| JSONDecodeError | OSError | AttributeError | TypeError | KeyboardInterrupt.

(** The backing file [game_time.json] as [load_data] can find it: absent,
    present but not readable, readable but not JSON, or a JSON document. *)
Inductive file :=
| NoFile
| Unreadable
| Malformed
| Content (doc : pyval).

(** What a call of [save_data] meets: the write goes through, or it raises
    and leaves the file in some state. *)
Inductive write_outcome :=
| Written
| Write_failed (remains : file).

(** What the program prints and writes, in order. The layout of the final
    report is not modelled: it is one event carrying the store it shows. *)
Inductive event :=
| Warn_corrupted
| Warn_load (e : exn)
| Warn_save
| Say_started
| Say_detecting
| Say_tracking (title : pystr)
| Say_stopped (title : pystr) (duration : Z)
| Say_stats (u : store)
| Say_bye
| Wrote (doc : pyval).

Record state := {
  current_game : option pystr;
  start_time : option Z;
  usage : store;
  disk : file;
  trace : list event
}.

Definition set_current_game (g : option pystr) (st : state) : state :=
  {| current_game := g; start_time := start_time st; usage := usage st;
     disk := disk st; trace := trace st |}.
Definition set_start_time (t : option Z) (st : state) : state :=
  {| current_game := current_game st; start_time := t; usage := usage st;
     disk := disk st; trace := trace st |}.
Definition set_usage (u : store) (st : state) : state :=
  {| current_game := current_game st; start_time := start_time st; usage := u;
     disk := disk st; trace := trace st |}.
Definition set_disk (f : file) (st : state) : state :=
  {| current_game := current_game st; start_time := start_time st;
     usage := usage st; disk := f; trace := trace st |}.
Definition emit (e : event) (st : state) : state :=
  {| current_game := current_game st; start_time := start_time st;
     usage := usage st; disk := disk st; trace := trace st ++ [e] |}.

(** ** Methods as state transformers that may raise *)

Inductive outcome (A : Type) :=
| Ret (a : A) (st : state)
| Raise (e : exn) (st : state).
Arguments Ret {A} a st.
Arguments Raise {A} e st.

Definition M (A : Type) : Type := state → outcome A.

Definition ret {A} (a : A) : M A := λ st, Ret a st.
Definition bind {A B} (m : M A) (k : A → M B) : M B :=
  λ st, match m st with
        | Ret a st' => k a st'
        | Raise e st' => Raise e st'
        end.
Definition raise {A} (e : exn) : M A := λ st, Raise e st.
Definition try_except {A} (body : M A) (handler : exn → M A) : M A :=
  λ st, match body st with
        | Ret a st' => Ret a st'
        | Raise e st' => handler e st'
        end.
Definition get {A} (f : state → A) : M A := λ st, Ret (f st) st.
Definition modify (f : state → state) : M unit := λ st, Ret tt (f st).
Definition print (e : event) : M unit := modify (emit e).

Declare Scope py_scope.
Delimit Scope py_scope with py.
Notation "x ← y ; z" := (bind y (λ x, z))
  (at level 20, y at level 100, z at level 200, only parsing) : py_scope.
Notation "x ;; z" := (bind x (λ _, z))
  (at level 100, z at level 200, only parsing, right associativity) : py_scope.

#[local] Open Scope py_scope.

Fixpoint for_each {A} (l : list A) (body : A → M unit) : M unit :=
  match l with
  | [] => ret tt
  | x :: l' => body x ;; for_each l' body
  end.

(** ** The store *)

(** [u[date][title] = v] on the [defaultdict] of [defaultdict]s: reading
    [u[date]] creates the day when it is missing. *)
Definition put (u : store) (date title : pystr) (v : pyval) : store :=
  <[date := <[title := v]> (default ∅ (u !! date))]> u.

(** The value stored at [(date, title)], if any. *)
Definition leaf (u : store) (date title : pystr) : option pyval :=
  u !! date ≫= (.!! title).

(** [old + duration] where [duration] is a number: defined on numbers
    ([bool] is a subclass of [int]), a [TypeError] on anything else.
    ([duration] is a [float]: on an integer [old] beyond the range of
    floats Python raises [OverflowError]; such integers are no numbers of
    the model, see [store_fits].) *)
Definition py_add (old : pyval) (duration : Z) : option pyval :=
  match old with
  | PNum x => Some (PNum (x + duration))
  | PBool b => Some (PNum (Z.b2z b + duration))
  | _ => None
  end.

Definition numeric (v : pyval) : bool :=
  match v with
  | PNum _ | PBool _ => true
  | _ => false
  end.

(** [json.dump(self.usage, f)]: the document of the store. Its members come
    in the order of the map, where Python writes them in the order of their
    insertion: documents are compared by their entries, not by that order. *)
Definition dump (u : store) : pyval :=
  PDict ((λ dg, (dg.1, PDict (map_to_list dg.2))) <$> map_to_list u).

(** The [(date, title, value)] entries of a document. *)
Definition games_of (v : pyval) : list (pystr * pyval) :=
  match v with
  | PDict games => games
  | _ => []
  end.

Definition triples (doc : pyval) : list (pystr * pystr * pyval) :=
  games_of doc ≫= λ dg, (λ gv, (dg.1, gv.1, gv.2)) <$> games_of dg.2.

(** The environment of one turn of the loop: what [get_active_window()],
    [time.time()] and, when they are reached, [time.strftime("%Y-%m-%d")]
    and the periodic write give. *)
Record tick := {
  window : option pystr;
  now : Z;
  today : pystr;
  write : write_outcome
}.

(** The same for [shutdown]. *)
Record stop := {
  stop_now : Z;
  stop_today : pystr;
  stop_write : write_outcome
}.

Section Tracker.
Context {UD : UnicodeData}.

(** *** [load_data] *)

Definition path_exists : M bool :=
  get (λ st, match disk st with NoFile => false | _ => true end).

(** [open(self.data_file, 'r')] followed by [json.load(f)]. *)
Definition json_load : M pyval :=
  λ st, match disk st with
        | Content doc => Ret doc st
        | Malformed => Raise JSONDecodeError st
        | Unreadable | NoFile => Raise OSError st
        end.

(** [v.items()]: only a [dict] has it. *)
Definition items (v : pyval) : M (list (pystr * pyval)) :=
  match v with
  | PDict members => ret members
  | _ => raise AttributeError
  end.

Definition usage_setitem (date game : pystr) (v : pyval) : M unit :=
  modify (λ st, set_usage (put (usage st) date game v) st).

Definition load_data : M unit :=
  there ← path_exists;
  if there : bool then
    try_except
      (data ← json_load;
       dates ← items data;
       for_each dates (λ dg,
         games ← items dg.2;
         for_each games (λ gd, usage_setitem dg.1 gd.1 gd.2)))
      (λ e, match e with
            | JSONDecodeError => print Warn_corrupted
            | KeyboardInterrupt => raise e
            | _ => print (Warn_load e)
            end)
  else ret tt.

(** [GameTracker()]: the fields of [__init__], then [load_data]. *)
Definition blank (f : file) : state :=
  {| current_game := None; start_time := None; usage := ∅;
     disk := f; trace := [] |}.

Definition new_tracker (f : file) : outcome unit := load_data (blank f).

(** *** [save_data] *)

Definition save_data (w : write_outcome) : M unit :=
  u ← get usage;
  match w with
  | Written =>
      modify (set_disk (Content (dump u))) ;;
      print (Wrote (dump u))
  | Write_failed remains =>
      modify (set_disk remains) ;;
      print Warn_save
  end.

(** *** [record_session] *)

Definition record_session (date game : pystr) (duration : Z) : M unit :=
  u ← get usage;
  match py_add (default (PNum 0) (leaf u date game)) duration with
  | Some v => modify (set_usage (put u date game v))
  | None => raise TypeError
  end.

(** *** [show_stats] *)

(** The sums and the quotients by 3600 raise [TypeError] on a leaf that is
    no number. (On integers beyond the range of floats they can raise
    [OverflowError]: see [store_fits].) *)
Definition all_numeric (u : store) : bool :=
  forallb (λ dg, forallb (λ gv, numeric gv.2) (map_to_list dg.2))
          (map_to_list u).

Definition show_stats : M unit :=
  u ← get usage;
  if all_numeric u then print (Say_stats u) else raise TypeError.

(** *** [track] *)

(** The test [self.current_game and self.start_time]: the session the
    code takes as open. A string is true when it is not empty, a number
    when it is not zero. *)
Definition open_session : M (option (pystr * Z)) :=
  g ← get current_game;
  s ← get start_time;
  ret match g, s with
      | Some (c :: g'), Some s => if s =? 0 then None else Some (c :: g', s)
      | _, _ => None
      end.

(** One turn of [while True], first half: the observation and what it
    does to the session. *)
Definition observe (o : tick) : M unit :=
  let current_window := window o in
  let now := now o in
  if is_game current_window then
    g ← get current_game;
    if bool_decide (current_window ≠ g) then
      opened ← open_session;
      match opened with
      | Some (game, start) =>
          let duration := now - start in
          record_session (today o) game duration
      | None => ret tt
      end ;;
      modify (set_current_game current_window) ;;
      modify (set_start_time (Some now)) ;;
      print (Say_tracking (default [] current_window))
    else ret tt
  else
    opened ← open_session;
    match opened with
    | Some (game, start) =>
        let duration := now - start in
        record_session (today o) game duration ;;
        print (Say_stopped game duration) ;;
        modify (set_current_game None) ;;
        modify (set_start_time None)
    | None => ret tt
    end.

(** Second half: the save every 5 minutes. [last_save] is the local of
    [track]; the result is its value for the next turn. *)
Definition autosave (o : tick) (last_save : Z) : M Z :=
  if 300 <? now o - last_save then save_data (write o) ;; ret (now o)
  else ret last_save.

Definition track_step (o : tick) (last_save : Z) : M Z :=
  observe o ;; autosave o last_save.

Definition shutdown (s : stop) : M unit :=
  opened ← open_session;
  match opened with
  | Some (game, start) =>
      let duration := stop_now s - start in
      record_session (stop_today s) game duration
  | None => ret tt
  end ;;
  save_data (stop_write s) ;;
  show_stats ;;
  print Say_bye.

(** The loop over the turns the environment grants; the interrupt
    arrives in the [time.sleep(15)] that follows the last of them. *)
Fixpoint track_loop (ticks : list tick) (last_save : Z) : M unit :=
  match ticks with
  | [] => raise KeyboardInterrupt
  | o :: rest => last_save' ← track_step o last_save; track_loop rest last_save'
  end.

Definition track (t0 : Z) (ticks : list tick) (s : stop) : M unit :=
  print Say_started ;;
  print Say_detecting ;;
  try_except (track_loop ticks t0)
    (λ e, match e with
          | KeyboardInterrupt => shutdown s
          | _ => raise e
          end).

(** [tracker = GameTracker(); tracker.track()]. *)
Definition main (f : file) (t0 : Z) (ticks : list tick) (s : stop) : outcome unit :=
  (load_data ;; track t0 ticks s) (blank f).

End Tracker.

(** ** Notions of the specification *)

(** The session of the state machine: [Active] when both fields are set. *)
Inductive session :=
| Idle
| Active (title : pystr) (start : Z).

Definition session_of (st : state) : session :=
  match current_game st, start_time st with
  | Some t, Some s => Active t s
  | _, _ => Idle
  end.

(** The accumulated seconds at [(date, title)]: what the next
    [record_session] adds to (a missing entry counts as [0.0]). *)
Definition seconds (u : store) (date title : pystr) : pyval :=
  default (PNum 0) (leaf u date title).

(** A store of the documented shape: every leaf is a number. *)
Definition numbers (u : store) : Prop :=
  ∀ date title v, leaf u date title = Some v → ∃ x, v = PNum x.

(** The invariant of the data model: every leaf is a number [≥ 0]. *)
Definition nonneg (u : store) : Prop :=
  ∀ date title v, leaf u date title = Some v → ∃ x, v = PNum x ∧ 0 ≤ x.

(** A document of the persisted layout: an object of objects of numbers,
    keys unique at each level (as in every [dict]). *)
Definition well_formed_games (v : pyval) : Prop :=
  ∃ games, v = PDict games ∧ NoDup games.*1 ∧
           Forall (λ gv, ∃ x, gv.2 = PNum x) games.

Definition well_formed (doc : pyval) : Prop :=
  ∃ dates, doc = PDict dates ∧ NoDup dates.*1 ∧
           Forall (λ dg, well_formed_games dg.2) dates.

(** What the two loops of [load_data] do to the store: the inner one over
    the games of a date, the outer one over the dates, which stops at the
    first member that is no object and keeps what was copied before it. *)
Definition load_games (date : pystr) (games : list (pystr * pyval)) (u : store) : store :=
  foldl (λ u gd, put u date gd.1 gd.2) u games.

Fixpoint load_dates (dates : list (pystr * pyval)) (u : store) : store * option exn :=
  match dates with
  | [] => (u, None)
  | dg :: rest =>
      match dg.2 with
      | PDict games => load_dates rest (load_games dg.1 games u)
      | _ => (u, Some AttributeError)
      end
  end.

(** The outer loop on a document all of whose members are objects. *)
Definition load_all (dates : list (pystr * pyval)) (u : store) : store :=
  foldl (λ u dg, load_games dg.1 (games_of dg.2) u) u dates.

(** A tracker with the session [(t, s)] open and nothing recorded yet, and
    the environment of a [shutdown] at instant [now] on 2024-01-02. *)
Definition tracking (t : pystr) (s : Z) : state :=
  {| current_game := Some t; start_time := Some s; usage := ∅;
     disk := NoFile; trace := [] |}.

Definition stop_at (now : Z) : stop :=
  {| stop_now := now; stop_today := lit "2024-01-02"; stop_write := Written |}.

(** A turn of the loop on 2024-01-02 whose write, if any, goes through. *)
Definition turn_at (w : option pystr) (t : Z) : tick :=
  {| window := w; now := t; today := lit "2024-01-02"; write := Written |}.

(** A clock that never goes backwards over a run: from instant [t], through
    the turns of the loop, to the instant of [shutdown]. *)
Fixpoint never_backwards (t : Z) (ticks : list tick) (sd : stop) : Prop :=
  match ticks with
  | [] => t ≤ stop_now sd
  | o :: rest => t ≤ now o ∧ never_backwards (now o) rest sd
  end.

(** In a goal about the start instant of a computed state: it is unset, the
    instant of the current turn, or the one the state had before. *)
Ltac start_time_bound Hclock :=
  simpl; let s' := fresh "s" in let Hs' := fresh "Hs" in
  intros s' Hs';
  first [ discriminate Hs'
        | injection Hs' as <-; lia
        | by apply Hclock ].

(** The calls of [save_data] in a trace: each leaves exactly one event. *)
Definition is_flush (e : event) : bool :=
  match e with
  | Wrote _ | Warn_save => true
  | _ => false
  end.

Definition flushes (tr : list event) : nat := length (filter is_flush tr).

(** ** Notions for whole runs *)

(** The session that the test of [open_session] finds, as a function of the
    state. *)
Definition opened (st : state) : option (pystr * Z) :=
  match current_game st, start_time st with
  | Some (c :: g), Some s => if s =? 0 then None else Some (c :: g, s)
  | _, _ => None
  end.

(** The number a leaf counts for in a sum ([True] counts for [1]; the sums
    are only taken of stores whose leaves are numbers). *)
Definition num_of (v : pyval) : Z :=
  match v with
  | PNum x => x
  | PBool b => Z.b2z b
  | _ => 0
  end.

(** [sum(m.values())] with the values read through [f]. *)
Definition msum {A} (f : A → Z) (m : gmap pystr A) : Z :=
  foldr (λ kv acc, f kv.2 + acc) 0 (map_to_list m).

(** [sum(games.values())] of one date, and the same over all dates: all the
    seconds the store holds. *)
Definition day_total (games : gmap pystr pyval) : Z := msum num_of games.
Definition total (u : store) : Z := msum day_total u.

(** The range of floats. [float(n)] of an integer [n], which is what
    [int + float] computes first, raises [OverflowError] from
    [2^1024 - 2^970] on in absolute value (the integers that round to a
    finite [float] are those below); [int / int] raises it when the
    quotient is that large. Sums and differences of floats never raise. *)
Definition float_limit : Z := 2 ^ 1024 - 2 ^ 970.

(** A store on which no conversion of the program can overflow: at each
    date the absolute values of the leaves sum to less than [float_limit].
    Then every leaf, every partial sum of [sum(games.values())] and every
    quotient by 3600 is within the range of floats; and the loop keeps it
    so for the integers, since what [record_session] stores is a float. *)
Definition day_fits (games : gmap pystr pyval) : bool :=
  msum (λ v, Z.abs (num_of v)) games <? float_limit.
Definition store_fits (u : store) : bool :=
  forallb (λ dg, day_fits dg.2) (map_to_list u).

Section RunNotions.
Context {UD : UnicodeData}.

(** What [observe] does, as functions of the state before it: the session it
    records (if any), the store and the session fields it leaves. *)
Definition recorded_by (o : tick) (st : state) : option (pystr * Z) :=
  if is_game (window o) then
    if bool_decide (window o ≠ current_game st) then opened st else None
  else opened st.

Definition usage_after (o : tick) (st : state) : store :=
  match recorded_by o st with
  | Some (t, s) =>
      put (usage st) (today o) t
          (PNum (num_of (seconds (usage st) (today o) t) + (now o - s)))
  | None => usage st
  end.

Definition fields_after (o : tick) (st : state) : option pystr * option Z :=
  if is_game (window o) then
    if bool_decide (window o ≠ current_game st) then (window o, Some (now o))
    else (current_game st, start_time st)
  else
    match opened st with
    | Some _ => (None, None)
    | None => (current_game st, start_time st)
    end.

(** The tracker only ever holds a game as its current game. *)
Definition tracks_a_game (st : state) : Prop :=
  ∀ t, current_game st = Some t → is_game (Some t) = true.

End RunNotions.

(** The store [shutdown] leaves: the open session, if any, recorded. *)
Definition usage_at_stop (sd : stop) (st : state) : store :=
  match opened st with
  | Some (t, s) =>
      put (usage st) (stop_today sd) t
          (PNum (num_of (seconds (usage st) (stop_today sd) t) + (stop_now sd - s)))
  | None => usage st
  end.

(** No leaf of [u] is lost or made smaller in [u']. *)
Definition leaves_grow (u u' : store) : Prop :=
  ∀ d g x, leaf u d g = Some (PNum x) →
           ∃ y, leaf u' d g = Some (PNum y) ∧ x ≤ y.

(** Every date of the store holds at least one title (what [put] builds). *)
Definition no_empty_day (u : store) : Prop :=
  ∀ d gm, u !! d = Some gm → gm ≠ ∅.

(** ** The report of [show_stats] *)

(** [x / 3600] on a number of seconds. *)
Definition hours (secs : Z) : Q := Qmake secs 3600.

(** The orders of the two [sorted] calls: dates from the greatest down
    (strings compare by code points), games from the longest down. *)
Definition by_date_desc (x y : pystr * gmap pystr pyval) : Prop :=
  ¬ lexico x.1 y.1.
Definition by_duration_desc (x y : pystr * pyval) : Prop :=
  num_of y.2 ≤ num_of x.2.

#[local] Instance str_lexico_dec (a b : pystr) : Decision (lexico a b) :=
  match trichotomyT lexico a b with
  | inleft (left H) => left H
  | inleft (right H) =>
      right (λ Hlt, irreflexivity lexico b (eq_rect a (λ c, lexico c b) Hlt b H))
  | inright H => right (λ Hlt, irreflexivity lexico a (transitivity Hlt H))
  end.

#[local] Instance by_date_desc_dec x y : Decision (by_date_desc x y) :=
  not_dec (str_lexico_dec x.1 y.1).
#[local] Instance by_duration_desc_dec x y : Decision (by_duration_desc x y) :=
  Z_le_dec (num_of y.2) (num_of x.2).

(** The lines of one date: the date, its total in hours, and its games with
    their hours. *)
Record day_lines := {
  line_date : pystr;
  line_hours : Q;
  line_games : list (pystr * Q)
}.

Definition day_report (dg : pystr * gmap pystr pyval) : day_lines :=
  {| line_date := dg.1;
     line_hours := hours (day_total dg.2);
     line_games :=
       (λ gv, (gv.1, hours (num_of gv.2))) <$>
       merge_sort by_duration_desc (map_to_list dg.2) |}.

(** What [show_stats] prints for the store [u] of a [Say_stats u]: the days,
    and [total_hours]. The ".1f" layout of the numbers is not modelled, and
    games of equal duration come in the order of the map (Python keeps their
    order of insertion). *)
Definition report (u : store) : list day_lines * Q :=
  let days := day_report <$> merge_sort by_date_desc (map_to_list u) in
  (days, foldl (λ total_hours d, Qplus total_hours (line_hours d)) 0%Q days).

(** The entries of the Unicode character database the examples refer to
    (the theorems hold for any table; the examples run on this one):
    U+017F (long s) is lower case and upper-cases to "S"; U+0131 (dotless i)
    is lower case and upper-cases to "I"; U+212A (Kelvin sign) is upper case
    and lower-cases to "k". Every other code point is left as it is here. *)
#[local] Instance unicode_sample : UnicodeData := {|
  unicode_lower c := if (c =? 8490)%N then [107%N] else [c];
  unicode_upper c :=
    if (c =? 383)%N then [83%N]
    else if (c =? 305)%N then [73%N]
    else [c]
|}.

(** Case analysis on the comparisons of code points in the goal. *)
Ltac cases_N :=
  repeat match goal with
    | |- context [(?a <=? ?b)%N] => destruct (N.leb_spec a b)
    | |- context [(?a <? ?b)%N] => destruct (N.ltb_spec a b)
    end; simpl; try lia.

(** ** The classifier *)

Section ClassifierFacts.
Context {UD : UnicodeData}.

Lemma starts_with_spec k s :
  starts_with k s = true ↔ ∃ post, s = k ++ post.
Proof.
  revert s. induction k as [|a k IH]; intros s.
  - simpl. split; [eauto|done].
  - destruct s as [|b s]; simpl.
    + split; [done|]. intros [post Hp]. discriminate.
    + rewrite andb_true_iff, N.eqb_eq, IH. split.
      * intros [-> [post ->]]. eauto.
      * intros [post Hp]. injection Hp as -> ->. eauto.
Qed.

Lemma contains_spec k s : contains k s = true ↔ substring k s.
Proof.
  unfold substring. induction s as [|b s IH].
  - simpl. rewrite orb_false_r, starts_with_spec. split.
    + intros [post Hp]. exists [], post. done.
    + intros (pre & post & Hp). destruct pre as [|? ?]; [|discriminate].
      simpl in Hp. eauto.
  - cbn [contains]. rewrite orb_true_iff, starts_with_spec, IH. split.
    + intros [[post Hp]|(pre & post & Hp)].
      * exists [], post. done.
      * exists (b :: pre), post. by rewrite Hp.
    + intros (pre & post & Hp). destruct pre as [|c pre].
      * left. eauto.
      * right. injection Hp as -> ->. eauto.
Qed.

Lemma keywords_nonempty : [] ∉ game_keywords.
Proof. rewrite list_elem_of_In. simpl. intuition discriminate. Qed.

Lemma is_game_keyword t :
  is_game (Some t) = true ↔
  ∃ k, k ∈ game_keywords ∧ substring k (str_lower t).
Proof.
  destruct t as [|c t].
  - simpl. split; [done|]. intros (k & Hk & pre & post & Hp).
    symmetry in Hp. apply app_eq_nil in Hp as [_ Hp].
    apply app_eq_nil in Hp as [-> _]. by apply keywords_nonempty in Hk.
  - unfold is_game. rewrite existsb_exists. split.
    + intros (k & Hk & Hc). exists k. by rewrite list_elem_of_In, <- contains_spec.
    + intros (k & Hk & Hc). exists k. by rewrite <- list_elem_of_In, contains_spec.
Qed.

Lemma is_game_Some t :
  is_game (Some t) =
  existsb (λ keyword, contains keyword (str_lower t)) game_keywords.
Proof. destruct t; reflexivity. Qed.

(** **** Case mapping of ASCII titles *)

Lemma lower_cp_ascii c :
  (c < 128)%N →
  ∃ c', lower_cp c = [c'] ∧ (c' < 128)%N ∧ lower_cp c' = [c'].
Proof.
  intros Hc. unfold lower_cp.
  destruct (N.leb_spec 65 c); destruct (N.leb_spec c 90); simpl.
  - exists (c + 32)%N. repeat split; [lia|]. cases_N. done.
  - exists c. destruct (N.ltb_spec c 128); [|lia].
    repeat split; [done|]. cases_N. done.
  - exists c. destruct (N.ltb_spec c 128); [|lia].
    repeat split; [done|]. cases_N. done.
  - lia.
Qed.

Lemma upper_cp_ascii c :
  (c < 128)%N →
  ∃ c', upper_cp c = [c'] ∧ (c' < 128)%N ∧ lower_cp c' = lower_cp c.
Proof.
  intros Hc. unfold upper_cp.
  destruct (N.leb_spec 97 c); destruct (N.leb_spec c 122); simpl.
  - exists (c - 32)%N. repeat split; [lia|]. unfold lower_cp. cases_N.
    f_equal. lia.
  - exists c. destruct (N.ltb_spec c 128); [|lia]. done.
  - exists c. destruct (N.ltb_spec c 128); [|lia]. done.
  - lia.
Qed.

Lemma str_lower_app s1 s2 : str_lower (s1 ++ s2) = str_lower s1 ++ str_lower s2.
Proof. unfold str_lower. apply flat_map_app. Qed.

(** Lower-casing twice is lower-casing once, when it is so on each code
    point (as it is in the Unicode character database). *)
Lemma str_lower_idem_table t :
  (∀ c, str_lower (lower_cp c) = lower_cp c) →
  str_lower (str_lower t) = str_lower t.
Proof.
  intros Hc. induction t as [|c t IH]; [done|].
  change (str_lower (c :: t)) with (lower_cp c ++ str_lower t).
  by rewrite str_lower_app, Hc, IH.
Qed.

Lemma str_lower_idem t : is_ascii t → str_lower (str_lower t) = str_lower t.
Proof.
  induction 1 as [|c t Hc _ IH]; [done|].
  destruct (lower_cp_ascii c Hc) as (c' & E & _ & E').
  unfold str_lower in *. simpl. rewrite E. simpl. rewrite E'. simpl.
  by rewrite IH.
Qed.

Lemma str_lower_upper t : is_ascii t → str_lower (str_upper t) = str_lower t.
Proof.
  induction 1 as [|c t Hc _ IH]; [done|].
  destruct (upper_cp_ascii c Hc) as (c' & E & _ & E').
  unfold str_lower, str_upper in *. simpl. rewrite E. simpl.
  rewrite E'. by rewrite IH.
Qed.

(** C4. [is_game] is false on [None] and on the empty string; on any
    other title (in fact on every title) it is true exactly when the
    lower-cased title contains one of the keywords as a substring. The
    containment ignores word boundaries: "wow" is found in "wowzers". *)
Theorem is_game_contract :
  is_game None = false ∧
  is_game (Some []) = false ∧
  (∀ t, is_game (Some t) = true ↔
        ∃ k, k ∈ game_keywords ∧ substring k (str_lower t)) ∧
  (lit "wow" ∈ game_keywords ∧
   substring (lit "wow") (str_lower (lit "wowzers")) ∧
   is_game (Some (lit "wowzers")) = true).
Proof.
  split; [done|]. split; [done|]. split; [apply is_game_keyword|].
  split; [|split].
  - rewrite list_elem_of_In. simpl. tauto.
  - exists [], (lit "zers"). reflexivity.
  - reflexivity.
Qed.

(** C9 (as amended). For every title, [is_game] gives the same verdict on
    the title and on its lower-cased form (lower-casing is idempotent: it
    is so on each code point in the Unicode character database). It gives
    the same verdict on the upper-cased form of every title whose
    upper-cased form lower-cases to what the title lower-cases to; every
    title made of ASCII characters is such a title. *)
Theorem is_game_case_insensitive t :
  ((∀ c, str_lower (lower_cp c) = lower_cp c) →
   is_game (Some t) = is_game (Some (str_lower t))) ∧
  (str_lower (str_upper t) = str_lower t →
   is_game (Some t) = is_game (Some (str_upper t))) ∧
  (is_ascii t →
   str_lower (str_upper t) = str_lower t ∧
   is_game (Some t) = is_game (Some (str_lower t)) ∧
   is_game (Some t) = is_game (Some (str_upper t))).
Proof.
  rewrite !is_game_Some. split; [|split].
  - intros Hc. by rewrite str_lower_idem_table.
  - by intros ->.
  - intros Ht. by rewrite str_lower_idem, str_lower_upper.
Qed.

End ClassifierFacts.

(** Lower-casing is idempotent on each code point of the sample table. *)
Lemma unicode_sample_lower_idem (c : N) : str_lower (lower_cp c) = lower_cp c.
Proof.
  assert (∀ x y : N, lower_cp x = [y] → lower_cp y = [y] →
                     str_lower (lower_cp x) = lower_cp x) as Hfix.
  { intros x y Hx Hy. rewrite Hx. unfold str_lower. simpl. by rewrite Hy. }
  destruct (N.ltb_spec c 128) as [Hc|Hc].
  - destruct (lower_cp_ascii c Hc) as (c' & E & _ & E'). by apply (Hfix c c').
  - destruct (N.eqb_spec c 8490) as [->|Hk]; [reflexivity|].
    apply (Hfix c c); unfold lower_cp; cases_N; simpl;
      by destruct (N.eqb_spec c 8490).
Qed.

Lemma is_game_case_insensitive_witness :
  let kelvin := lit "ROC" ++ 8490%N :: lit "STAR" in
  ((∀ c, str_lower (lower_cp c) = lower_cp c) ∧
   str_lower kelvin = lit "rockstar" ∧
   is_game (Some kelvin) = is_game (Some (str_lower kelvin))) ∧
  (is_ascii (lit "Valorant") ∧
   str_lower (str_upper (lit "Valorant")) = str_lower (lit "Valorant") ∧
   is_game (Some (lit "Valorant")) = is_game (Some (str_lower (lit "Valorant"))) ∧
   is_game (Some (lit "Valorant")) = is_game (Some (str_upper (lit "Valorant")))).
Proof.
  assert (is_ascii (lit "Valorant")) as Ht.
  { repeat (apply List.Forall_cons; [reflexivity|]). apply List.Forall_nil. }
  split.
  - split; [exact unicode_sample_lower_idem|]. split; [reflexivity|].
    exact (proj1 (is_game_case_insensitive (lit "ROC" ++ 8490%N :: lit "STAR"))
                 unicode_sample_lower_idem).
  - split; [exact Ht|].
    exact (proj2 (proj2 (is_game_case_insensitive (lit "Valorant"))) Ht).
Defined.

(** C9 (as stated) fails on a title with the long s (U+017F): the title
    itself is already lower case and holds no keyword, its upper-cased
    form is "SKYRIM". *)
Lemma is_game_long_s_title :
  let t := 383%N :: lit "kyrim" in
  str_lower t = t ∧
  str_upper t = lit "SKYRIM" ∧
  is_game (Some t) = false ∧
  is_game (Some (str_upper t)) = true.
Proof.
  simpl. split; [|split; [|split]]; reflexivity.
Qed.

(** ** The store *)

Section StoreFacts.

Lemma leaf_put u d g v d' g' :
  leaf (put u d g v) d' g' =
  if decide (d = d' ∧ g = g') then Some v else leaf u d' g'.
Proof.
  unfold leaf, put. destruct (decide (d = d')) as [<-|Hd].
  - rewrite lookup_insert_eq. simpl. destruct (decide (g = g')) as [<-|Hg].
    + rewrite lookup_insert_eq. by rewrite decide_True.
    + rewrite lookup_insert_ne by done.
      rewrite decide_False by (intros [_ ?]; done).
      destruct (u !! d); simpl; [done|apply lookup_empty].
  - rewrite lookup_insert_ne by done.
    by rewrite decide_False by (intros [? _]; done).
Qed.

Lemma leaf_put_eq u d g v : leaf (put u d g v) d g = Some v.
Proof. rewrite leaf_put. by rewrite decide_True. Qed.

Lemma leaf_put_ne u d g v d' g' :
  (d, g) ≠ (d', g') → leaf (put u d g v) d' g' = leaf u d' g'.
Proof.
  intros Hne. rewrite leaf_put. rewrite decide_False; [done|].
  intros [-> ->]. done.
Qed.

Lemma leaf_empty d g : leaf ∅ d g = None.
Proof. unfold leaf. by rewrite lookup_empty. Qed.

Lemma seconds_put_eq u d g v : seconds (put u d g v) d g = v.
Proof. unfold seconds. by rewrite leaf_put_eq. Qed.

Lemma seconds_put_ne u d g v d' g' :
  (d, g) ≠ (d', g') → seconds (put u d g v) d' g' = seconds u d' g'.
Proof. intros. unfold seconds. by rewrite leaf_put_ne. Qed.

Lemma nonneg_numbers u : nonneg u → numbers u.
Proof. intros H d g v Hv. destruct (H d g v Hv) as (x & -> & _). eauto. Qed.

Lemma numbers_seconds u d g : numbers u → ∃ x, seconds u d g = PNum x.
Proof.
  intros H. unfold seconds. destruct (leaf u d g) as [v|] eqn:E; simpl; eauto.
Qed.

Lemma nonneg_seconds u d g : nonneg u → ∃ x, seconds u d g = PNum x ∧ 0 ≤ x.
Proof.
  intros H. unfold seconds. destruct (leaf u d g) as [v|] eqn:E; simpl.
  - eauto.
  - exists 0. split; [done|lia].
Qed.

Lemma numbers_put u d g x : numbers u → numbers (put u d g (PNum x)).
Proof.
  intros H d' g' v. rewrite leaf_put. case_decide.
  - intros [= <-]. eauto.
  - apply H.
Qed.

Lemma nonneg_put u d g x : nonneg u → 0 ≤ x → nonneg (put u d g (PNum x)).
Proof.
  intros H Hx d' g' v. rewrite leaf_put. case_decide.
  - intros [= <-]. eauto.
  - apply H.
Qed.

Lemma nonneg_empty : nonneg ∅.
Proof. intros d g v. by rewrite leaf_empty. Qed.

Lemma leaf_map_to_list (u : store) (d g : pystr) (gm : gmap pystr pyval) (v : pyval) :
  (d, gm) ∈ map_to_list u → (g, v) ∈ map_to_list gm → leaf u d g = Some v.
Proof.
  rewrite !elem_of_map_to_list. intros Hd Hg. unfold leaf. by rewrite Hd.
Qed.

Lemma all_numeric_numbers u : numbers u → all_numeric u = true.
Proof.
  intros H. unfold all_numeric. apply forallb_forall. intros [d gm] Hd.
  apply forallb_forall. intros [g v] Hg. simpl in *.
  apply list_elem_of_In in Hd, Hg.
  destruct (H d g v (leaf_map_to_list u d g gm v Hd Hg)) as [x ->]. done.
Qed.

Lemma flushes_app tr tr' : flushes (tr ++ tr') = (flushes tr + flushes tr')%nat.
Proof. unfold flushes. by rewrite filter_app, length_app. Qed.

End StoreFacts.

(** ** The session tracker *)

Section TrackerFacts.
Context {UD : UnicodeData}.

(** *** [record_session] *)

Lemma record_session_num st date game d x :
  seconds (usage st) date game = PNum x →
  record_session date game d st =
  Ret tt (set_usage (put (usage st) date game (PNum (x + d))) st).
Proof.
  intros H. unfold record_session, bind, get, modify.
  fold (seconds (usage st) date game). by rewrite H.
Qed.

Lemma record_session_type_error st date game d v :
  leaf (usage st) date game = Some v → numeric v = false →
  record_session date game d st = Raise TypeError st.
Proof.
  intros H Hv. unfold record_session, bind, get. rewrite H. simpl.
  by destruct v.
Qed.

(** *** The test for an open session *)

Lemma open_session_active st t s :
  current_game st = Some t → t ≠ [] → start_time st = Some s → s ≠ 0 →
  open_session st = Ret (Some (t, s)) st.
Proof.
  intros Hg Ht Hs Hs0. unfold open_session, bind, get, ret.
  rewrite Hg, Hs. destruct t; [done|].
  by rewrite (proj2 (Z.eqb_neq s 0) Hs0).
Qed.

Lemma open_session_idle st :
  current_game st = None → open_session st = Ret None st.
Proof. intros Hg. unfold open_session, bind, get, ret. by rewrite Hg. Qed.

Lemma open_session_epoch st g :
  current_game st = g → start_time st = Some 0 →
  open_session st = Ret None st.
Proof.
  intros Hg Hs. unfold open_session, bind, get, ret. rewrite Hg, Hs.
  by destruct g as [[|? ?]|].
Qed.

(** *** The transitions of one observation *)


Lemma observe_idle_game st o w :
  window o = Some w → is_game (Some w) = true → current_game st = None →
  observe o st =
  Ret tt (emit (Say_tracking w)
            (set_start_time (Some (now o)) (set_current_game (Some w) st))).
Proof.
  intros Hw Hgame Hg. unfold observe. rewrite Hw, Hgame.
  unfold bind at 1. unfold get at 1. rewrite Hg.
  rewrite bool_decide_true by done. unfold bind at 1.
  by rewrite (open_session_idle st Hg).
Qed.



Lemma observe_stop st o t s x :
  is_game (window o) = false →
  current_game st = Some t → t ≠ [] → start_time st = Some s → s ≠ 0 →
  seconds (usage st) (today o) t = PNum x →
  observe o st =
  Ret tt (set_start_time None
            (set_current_game None
               (emit (Say_stopped t (now o - s))
                  (set_usage (put (usage st) (today o) t (PNum (x + (now o - s))))
                     st)))).
Proof.
  intros Hgame Hg Ht Hs Hs0 Hx. unfold observe. rewrite Hgame.
  unfold bind at 1. rewrite (open_session_active st t s Hg Ht Hs Hs0).
  unfold bind at 1. by rewrite (record_session_num st _ _ _ x Hx).
Qed.

(** A session whose start instant is [0.0] is not taken as open: the
    observation of a window that is no game changes nothing. *)
Lemma observe_stop_epoch st o :
  is_game (window o) = false → start_time st = Some 0 →
  observe o st = Ret tt st.
Proof.
  intros Hgame Hs. unfold observe. rewrite Hgame. unfold bind.
  by rewrite (open_session_epoch st _ eq_refl Hs).
Qed.

(** *** The periodic save *)

Lemma save_data_spec w st :
  ∃ st', save_data w st = Ret tt st' ∧
         current_game st' = current_game st ∧
         start_time st' = start_time st ∧
         usage st' = usage st ∧
         flushes (trace st') = S (flushes (trace st)) ∧
         (w = Written → disk st' = Content (dump (usage st))).
Proof.
  destruct w; eexists; (split; [reflexivity|]); simpl;
    rewrite flushes_app; repeat split; try done.
  - change (flushes [Wrote (dump (usage st))]) with 1%nat. lia.
  - change (flushes [Warn_save]) with 1%nat. lia.
Qed.

Lemma autosave_spec o last_save st :
  ∃ ls' st', autosave o last_save st = Ret ls' st' ∧
             current_game st' = current_game st ∧
             start_time st' = start_time st ∧
             usage st' = usage st.
Proof.
  unfold autosave. destruct (300 <? now o - last_save).
  - destruct (save_data_spec (write o) st) as (st' & E & ? & ? & ? & _).
    exists (now o), st'. unfold bind. rewrite E. done.
  - by exists last_save, st.
Qed.

Lemma track_step_of_observe o last_save st st1 :
  observe o st = Ret tt st1 →
  ∃ ls' st', track_step o last_save st = Ret ls' st' ∧
             current_game st' = current_game st1 ∧
             start_time st' = start_time st1 ∧
             usage st' = usage st1.
Proof.
  intros E. unfold track_step, bind. rewrite E. apply autosave_spec.
Qed.

Lemma is_game_nonempty w : is_game (Some w) = true → w ≠ [].
Proof. by intros H ->. Qed.



(** The start instant zero, which the table below leaves out: the test
    [self.current_game and self.start_time] takes a session whose start
    is [0.0] as no session, so with a clock that read [0.0] when the
    session was opened, the loop would record nothing when the window
    then shows something that is no game, and the fields would stay as
    they were. ([time.time()] counts the seconds since 1970: it does not
    read [0.0] while the program runs.) *)
Lemma session_opened_at_instant_zero :
  let o1 := {| window := Some (lit "Steam"); now := 0;
               today := lit "2024-01-02"; write := Written |} in
  let o2 := {| window := Some (lit "Notepad"); now := 15;
               today := lit "2024-01-02"; write := Written |} in
  is_game (window o1) = true ∧ is_game (window o2) = false ∧
  ∃ st1 st2,
    track_step o1 0 (blank NoFile) = Ret 0 st1 ∧
    session_of st1 = Active (lit "Steam") 0 ∧
    track_step o2 0 st1 = Ret 0 st2 ∧
    session_of st2 = Active (lit "Steam") 0 ∧
    usage st2 = ∅.
Proof.
  simpl. split; [reflexivity|]. split; [reflexivity|].
  eexists. eexists. split; [reflexivity|]. split; [reflexivity|].
  split; [reflexivity|]. split; reflexivity.
Qed.

(** The same run one second later: the session is recorded and closed. *)
Lemma session_opened_at_instant_one :
  let o1 := {| window := Some (lit "Steam"); now := 1;
               today := lit "2024-01-02"; write := Written |} in
  let o2 := {| window := Some (lit "Notepad"); now := 16;
               today := lit "2024-01-02"; write := Written |} in
  ∃ st1 st2,
    track_step o1 0 (blank NoFile) = Ret 0 st1 ∧
    session_of st1 = Active (lit "Steam") 1 ∧
    track_step o2 0 st1 = Ret 0 st2 ∧
    session_of st2 = Idle ∧
    leaf (usage st2) (lit "2024-01-02") (lit "Steam") = Some (PNum 15).
Proof.
  simpl. eexists. eexists. split; [reflexivity|]. split; [reflexivity|].
  split; [reflexivity|]. split; reflexivity.
Qed.



(** C2. [record_session] adds the duration onto the value held at
    [(today, title)] (a missing entry counting as zero) and touches no
    other entry, so that the sessions of a title on one day sum. The date
    is the one read when the session is recorded: a session opened at a
    turn of the loop on one date and closed at a turn on another date is
    credited, whole, to the date of the closing turn. *)
Theorem record_session_adds_at_close_date st date title d x :
  seconds (usage st) date title = PNum x →
  (∃ st', record_session date title d st = Ret tt st' ∧
          leaf (usage st') date title = Some (PNum (x + d)) ∧
          (∀ date' title', (date, title) ≠ (date', title') →
             leaf (usage st') date' title' = leaf (usage st) date' title') ∧
          (∀ d', ∃ st'', record_session date title d' st' = Ret tt st'' ∧
             leaf (usage st'') date title = Some (PNum (x + d + d')))) ∧
  (∀ o1 o2,
     current_game st = None →
     window o1 = Some title → is_game (Some title) = true → now o1 ≠ 0 →
     is_game (window o2) = false → today o2 = date →
     ∃ st', (observe o1 ;; observe o2) st = Ret tt st' ∧
            leaf (usage st') (today o2) title =
              Some (PNum (x + (now o2 - now o1))) ∧
            (∀ date' title', (today o2, title) ≠ (date', title') →
               leaf (usage st') date' title' = leaf (usage st) date' title')).
Proof.
  intros Hx. split.
  - eexists. split; [by apply record_session_num|]. simpl.
    split; [apply leaf_put_eq|]. split; [intros; by apply leaf_put_ne|].
    intros d'. eexists. split.
    + apply record_session_num. simpl. apply seconds_put_eq.
    + simpl. apply leaf_put_eq.
  - intros o1 o2 Hidle Hw1 Hgame1 Hnow Hgame2 Hdate. subst date.
    unfold bind. rewrite (observe_idle_game st o1 title Hw1 Hgame1 Hidle).
    erewrite observe_stop; [| done | reflexivity | by apply is_game_nonempty
                            | reflexivity | done | exact Hx ].
    eexists. split; [reflexivity|]. simpl.
    split; [apply leaf_put_eq|]. intros. by apply leaf_put_ne.
Qed.

(** *** [shutdown] *)

Lemma show_stats_numbers st :
  numbers (usage st) → show_stats st = Ret tt (emit (Say_stats (usage st)) st).
Proof.
  intros H. unfold show_stats, bind, get. by rewrite all_numeric_numbers.
Qed.

Lemma shutdown_after_record sd st st1 :
  numbers (usage st1) →
  (x ← open_session;
   match x with
   | Some (game, start) =>
       record_session (stop_today sd) game (stop_now sd - start)
   | None => ret tt
   end) st = Ret tt st1 →
  ∃ st', shutdown sd st = Ret tt st' ∧
         current_game st' = current_game st1 ∧
         start_time st' = start_time st1 ∧
         usage st' = usage st1 ∧
         flushes (trace st') = S (flushes (trace st1)) ∧
         (stop_write sd = Written → disk st' = Content (dump (usage st1))).
Proof.
  intros Hn E. unfold shutdown. unfold bind at 1. unfold bind at 1 in E.
  destruct (open_session st) as [r st0|e st0]; [|done].
  unfold bind at 1. rewrite E.
  destruct (save_data_spec (stop_write sd) st1)
    as (st2 & E2 & Hg & Hs & Hu & Hf & Hd).
  unfold bind at 1. rewrite E2. unfold bind at 1.
  rewrite show_stats_numbers by (by rewrite Hu).
  eexists. split; [reflexivity|]. simpl. rewrite !flushes_app.
  change (flushes [Say_stats (usage st2)]) with 0%nat.
  change (flushes [Say_bye]) with 0%nat.
  repeat split; try done. lia.
Qed.

(** C3 (as amended). On termination while a session [(t, s)] is open,
    with [s] not the instant zero, [shutdown] records [now - s] for [t] in
    today's bucket, calls [save_data] exactly once (after the record, so
    that a write that goes through holds the recorded store) and leaves
    the two session fields as they were. With [now = s + 100] the entry
    grows by [100]. *)
Theorem shutdown_records_then_flushes_once st sd t s :
  current_game st = Some t → t ≠ [] →
  start_time st = Some s → s ≠ 0 →
  numbers (usage st) →
  ∃ x st',
    seconds (usage st) (stop_today sd) t = PNum x ∧
    shutdown sd st = Ret tt st' ∧
    usage st' = put (usage st) (stop_today sd) t (PNum (x + (stop_now sd - s))) ∧
    (∀ date' title', (stop_today sd, t) ≠ (date', title') →
       leaf (usage st') date' title' = leaf (usage st) date' title') ∧
    session_of st' = Active t s ∧
    flushes (trace st') = S (flushes (trace st)) ∧
    (stop_write sd = Written → disk st' = Content (dump (usage st'))) ∧
    (stop_now sd = s + 100 →
       seconds (usage st') (stop_today sd) t = PNum (x + 100)).
Proof.
  intros Hg Ht Hs Hs0 Hn.
  destruct (numbers_seconds (usage st) (stop_today sd) t Hn) as [x Hx].
  set (st1 := set_usage
                (put (usage st) (stop_today sd) t (PNum (x + (stop_now sd - s))))
                st).
  destruct (shutdown_after_record sd st st1)
    as (st' & E & Hg' & Hs' & Hu' & Hf & Hd).
  { by apply numbers_put. }
  { unfold bind. rewrite (open_session_active st t s Hg Ht Hs Hs0).
    by apply record_session_num. }
  exists x, st'. split; [done|]. split; [done|]. split; [done|].
  split; [intros; rewrite Hu'; by apply leaf_put_ne|].
  split; [unfold session_of; by rewrite Hg', Hs'; simpl; rewrite Hg, Hs|].
  split; [done|]. split; [by rewrite Hu'|].
  intros Hnow. rewrite Hu'. simpl. rewrite seconds_put_eq.
  f_equal. lia.
Qed.

(** *** The invariant of the store *)

Lemma open_session_cases st :
  ∃ r, open_session st = Ret r st ∧
       (r = None ∨ ∃ t s, r = Some (t, s) ∧ start_time st = Some s).
Proof.
  unfold open_session, bind, get, ret.
  destruct (current_game st) as [[|c g]|];
    destruct (start_time st) as [s|];
    try destruct (s =? 0); eauto 8.
Qed.

Lemma record_session_nonneg st date title d :
  nonneg (usage st) → 0 ≤ d →
  ∃ u', record_session date title d st = Ret tt (set_usage u' st) ∧ nonneg u'.
Proof.
  intros Hu Hd.
  destruct (nonneg_seconds (usage st) date title Hu) as (x & Hx & Hx0).
  eexists. split; [by apply record_session_num|].
  apply nonneg_put; [done|lia].
Qed.

Lemma observe_nonneg st o :
  nonneg (usage st) → (∀ s, start_time st = Some s → s ≤ now o) →
  ∃ st', observe o st = Ret tt st' ∧ nonneg (usage st') ∧
         (∀ s, start_time st' = Some s → s ≤ now o).
Proof.
  intros Hu Hclock. unfold observe.
  destruct (open_session_cases st) as (r & Er & Hr).
  destruct (is_game (window o)).
  - unfold bind at 1. unfold get at 1.
    destruct (bool_decide _); [|by exists st].
    unfold bind at 1. rewrite Er.
    destruct Hr as [->|(t & s & -> & Hs)].
    + eexists. split; [reflexivity|]. split; [done|]. start_time_bound Hclock.
    + destruct (record_session_nonneg st (today o) t (now o - s) Hu)
        as (u' & E & Hu'); [specialize (Hclock s Hs); lia|].
      unfold bind at 1. rewrite E. eexists. split; [reflexivity|].
      split; [done|]. start_time_bound Hclock.
  - unfold bind at 1. rewrite Er.
    destruct Hr as [->|(t & s & -> & Hs)]; [by exists st|].
    destruct (record_session_nonneg st (today o) t (now o - s) Hu)
      as (u' & E & Hu'); [specialize (Hclock s Hs); lia|].
    unfold bind at 1. rewrite E. eexists. split; [reflexivity|].
    split; [done|]. start_time_bound Hclock.
Qed.

Lemma track_step_nonneg st o last_save :
  nonneg (usage st) → (∀ s, start_time st = Some s → s ≤ now o) →
  ∃ ls' st', track_step o last_save st = Ret ls' st' ∧ nonneg (usage st') ∧
             (∀ s, start_time st' = Some s → s ≤ now o).
Proof.
  intros Hu Hclock.
  destruct (observe_nonneg st o Hu Hclock) as (st1 & E & Hu1 & Hs1).
  destruct (track_step_of_observe o last_save st st1 E)
    as (ls' & st' & E' & _ & Hs' & Hu').
  exists ls', st'. by rewrite Hu', Hs'.
Qed.

Lemma shutdown_nonneg st sd :
  nonneg (usage st) → (∀ s, start_time st = Some s → s ≤ stop_now sd) →
  ∃ st', shutdown sd st = Ret tt st' ∧ nonneg (usage st').
Proof.
  intros Hu Hclock.
  destruct (open_session_cases st) as (r & Er & Hr).
  assert (∃ st1, (x ← open_session;
                  match x with
                  | Some (game, start) =>
                      record_session (stop_today sd) game (stop_now sd - start)
                  | None => ret tt
                  end) st = Ret tt st1 ∧ nonneg (usage st1))
    as (st1 & E1 & Hu1).
  { unfold bind. rewrite Er. destruct Hr as [->|(t & s & -> & Hs)].
    - by exists st.
    - destruct (record_session_nonneg st (stop_today sd) t (stop_now sd - s) Hu)
        as (u' & E & Hu'); [specialize (Hclock s Hs); lia|]. eauto. }
  destruct (shutdown_after_record sd st st1 (nonneg_numbers _ Hu1) E1)
    as (st' & E & _ & _ & Hu' & _).
  exists st'. by rewrite Hu'.
Qed.

(** C8. From a store whose leaves are all numbers [≥ 0], and as long as
    a session is never closed at an instant earlier than its start,
    [record_session] (with a duration [≥ 0]), a turn of the loop and
    [shutdown] all return normally and leave a store whose leaves are all
    numbers [≥ 0]. *)
Theorem durations_stay_nonneg st :
  nonneg (usage st) →
  (∀ date title d, 0 ≤ d →
     ∃ st', record_session date title d st = Ret tt st' ∧ nonneg (usage st')) ∧
  (∀ o last_save, (∀ s, start_time st = Some s → s ≤ now o) →
     ∃ ls' st', track_step o last_save st = Ret ls' st' ∧ nonneg (usage st')) ∧
  (∀ sd, (∀ s, start_time st = Some s → s ≤ stop_now sd) →
     ∃ st', shutdown sd st = Ret tt st' ∧ nonneg (usage st')).
Proof.
  intros Hu. split; [|split].
  - intros date title d Hd.
    destruct (record_session_nonneg st date title d Hu Hd) as (u' & E & Hu').
    eauto.
  - intros o ls Hclock.
    destruct (track_step_nonneg st o ls Hu Hclock) as (ls' & st' & E & Hu' & _).
    eauto.
  - intros sd Hclock. by apply shutdown_nonneg.
Qed.

(** The same over a whole run: with a clock that never goes backwards, the
    loop runs until the interrupt, [shutdown] returns, and the store it
    leaves has only numbers [≥ 0]. *)
Lemma track_loop_nonneg ticks sd t last_save st :
  nonneg (usage st) → (∀ s, start_time st = Some s → s ≤ t) →
  never_backwards t ticks sd →
  ∃ st', track_loop ticks last_save st = Raise KeyboardInterrupt st' ∧
         nonneg (usage st') ∧
         (∀ s, start_time st' = Some s → s ≤ stop_now sd).
Proof.
  revert t last_save st.
  induction ticks as [|o ticks IH]; intros t ls st Hu Hs Hclock; simpl in *.
  - exists st. split; [done|]. split; [done|]. intros s E.
    specialize (Hs s E). lia.
  - destruct Hclock as [Ht Hclock].
    destruct (track_step_nonneg st o ls Hu) as (ls' & st1 & E & Hu1 & Hs1).
    { intros s Es. specialize (Hs s Es). lia. }
    unfold bind. rewrite E. by apply (IH (now o)).
Qed.

Lemma track_nonneg t0 ticks sd st :
  nonneg (usage st) → (∀ s, start_time st = Some s → s ≤ t0) →
  never_backwards t0 ticks sd →
  ∃ st', track t0 ticks sd st = Ret tt st' ∧ nonneg (usage st').
Proof.
  intros Hu Hs Hclock. unfold track, bind, print, modify, try_except.
  destruct (track_loop_nonneg ticks sd t0 t0 (emit Say_detecting (emit Say_started st)))
    as (st1 & E & Hu1 & Hs1); [done..|].
  rewrite E. by apply shutdown_nonneg.
Qed.

(** C10. "Microsoft Teams" is classified as a game: the keyword "ea"
    occurs in "teams", and it is the only keyword that occurs in the
    title. A turn of the loop that sees this window while no session is
    open opens a session for it. *)
Theorem microsoft_teams_is_tracked :
  lit "ea" ∈ game_keywords ∧
  substring (lit "ea") (str_lower (lit "Microsoft Teams")) ∧
  List.filter (λ k, contains k (str_lower (lit "Microsoft Teams")))
              game_keywords = [lit "ea"] ∧
  is_game (Some (lit "Microsoft Teams")) = true ∧
  ∀ u f tr n d w last_save,
    ∃ ls' st',
      track_step {| window := Some (lit "Microsoft Teams"); now := n;
                    today := d; write := w |} last_save
                 {| current_game := None; start_time := None; usage := u;
                    disk := f; trace := tr |} = Ret ls' st' ∧
      session_of st' = Active (lit "Microsoft Teams") n ∧
      usage st' = u.
Proof.
  split; [rewrite list_elem_of_In; simpl; tauto|].
  split; [by exists (lit "microsoft t"), (lit "ms")|].
  split; [reflexivity|]. split; [reflexivity|].
  intros u f tr n d w ls.
  set (o := {| window := Some (lit "Microsoft Teams"); now := n;
               today := d; write := w |}).
  set (st := {| current_game := None; start_time := None; usage := u;
                disk := f; trace := tr |}).
  pose proof (observe_idle_game st o (lit "Microsoft Teams")
                eq_refl eq_refl eq_refl) as E0.
  destruct (track_step_of_observe o ls st _ E0)
    as (ls' & st' & E & Hg & Hs & Hu).
  exists ls', st'. split; [exact E|]. unfold session_of.
  rewrite Hg, Hs, Hu. done.
Qed.

End TrackerFacts.

(** ** Persistence *)

Section PersistenceFacts.

Lemma set_usage_id st : set_usage (usage st) st = st.
Proof. by destruct st. Qed.

(** *** The loops of [load_data] *)

Lemma for_each_games date games st :
  for_each games (λ gd, usage_setitem date gd.1 gd.2) st =
  Ret tt (set_usage (load_games date games (usage st)) st).
Proof.
  revert st. induction games as [|[g v] games IH]; intros st; simpl.
  - unfold ret. by rewrite set_usage_id.
  - unfold bind. unfold usage_setitem at 1. unfold modify. by rewrite IH.
Qed.

Lemma for_each_dates dates st :
  for_each dates
    (λ dg, bind (items dg.2)
             (λ games, for_each games (λ gd, usage_setitem dg.1 gd.1 gd.2))) st =
  match load_dates dates (usage st) with
  | (u', None) => Ret tt (set_usage u' st)
  | (u', Some e) => Raise e (set_usage u' st)
  end.
Proof.
  revert st. induction dates as [|[d v] dates IH]; intros st; simpl.
  - unfold ret. by rewrite set_usage_id.
  - unfold bind at 1. unfold bind at 1.
    destruct v as [| | | | |games]; simpl;
      [unfold raise; by rewrite set_usage_id..|].
    unfold ret. rewrite for_each_games, IH. simpl.
    by destruct (load_dates _ _) as [u' [e|]].
Qed.

Lemma load_dates_exn dates u u' e :
  load_dates dates u = (u', Some e) → e = AttributeError.
Proof.
  revert u. induction dates as [|[d v] dates IH]; intros u; simpl; [done|].
  destruct v; try (by intros [= _ <-]). apply IH.
Qed.

Lemma load_dates_well_formed dates u :
  Forall (λ dg, well_formed_games dg.2) dates →
  load_dates dates u = (load_all dates u, None).
Proof.
  intros H. revert u. induction H as [|[d v] dates Hv _ IH]; intros u; [done|].
  destruct Hv as (games & Hv & _). simpl in Hv. subst v. apply IH.
Qed.

Lemma load_data_content st dates :
  disk st = Content (PDict dates) →
  load_data st =
  Ret tt match load_dates dates (usage st) with
         | (u', None) => set_usage u' st
         | (u', Some e) => emit (Warn_load e) (set_usage u' st)
         end.
Proof.
  intros Hd. unfold load_data. unfold bind at 1. unfold path_exists, get.
  rewrite Hd. unfold try_except. unfold bind at 1. unfold json_load.
  rewrite Hd. unfold bind at 1. simpl.
  rewrite for_each_dates.
  destruct (load_dates dates (usage st)) as [u' [e|]] eqn:E; [|done].
  by rewrite (load_dates_exn _ _ _ _ E).
Qed.

(** *** Which leaf a load leaves where *)

Lemma leaf_load_games_other date games u d g :
  d ≠ date ∨ g ∉ games.*1 →
  leaf (load_games date games u) d g = leaf u d g.
Proof.
  revert u. induction games as [|[g0 v0] games IH]; intros u H; [done|].
  simpl. rewrite IH.
  - apply leaf_put_ne. intros [= -> ->]. destruct H as [H|H]; [done|].
    apply H. simpl. left.
  - destruct H as [H|H]; [by left|]. right. intros Hin. apply H.
    simpl. by right.
Qed.

Lemma leaf_load_games_in date games u g v :
  NoDup games.*1 → (g, v) ∈ games →
  leaf (load_games date games u) date g = Some v.
Proof.
  revert u. induction games as [|[g0 v0] games IH]; intros u Hnd Hin.
  - by apply elem_of_nil in Hin.
  - simpl in Hnd. apply NoDup_cons in Hnd as [Hg0 Hnd].
    apply elem_of_cons in Hin as [[= -> ->]|Hin]; simpl.
    + rewrite leaf_load_games_other by (by right). apply leaf_put_eq.
    + by apply IH.
Qed.

Lemma leaf_load_all_other dates u d g :
  (∀ v, (d, v) ∈ dates → g ∉ (games_of v).*1) →
  leaf (load_all dates u) d g = leaf u d g.
Proof.
  revert u. induction dates as [|[d0 v0] dates IH]; intros u H; [done|].
  unfold load_all in *. simpl. rewrite IH.
  - apply leaf_load_games_other. destruct (decide (d = d0)) as [->|]; [|by left].
    right. apply H. left.
  - intros v Hv. apply H. by right.
Qed.

Lemma leaf_load_all_in dates u d games g v :
  NoDup dates.*1 → (d, PDict games) ∈ dates →
  NoDup games.*1 → (g, v) ∈ games →
  leaf (load_all dates u) d g = Some v.
Proof.
  revert u. induction dates as [|[d0 v0] dates IH]; intros u Hnd Hd Hg Hin.
  - by apply elem_of_nil in Hd.
  - simpl in Hnd. apply NoDup_cons in Hnd as [Hd0 Hnd].
    apply elem_of_cons in Hd as [[= <- <-]|Hd]; simpl.
    + fold (load_all dates (load_games d games u)).
      rewrite leaf_load_all_other.
      * by apply leaf_load_games_in.
      * intros v' Hv'. exfalso. apply Hd0.
        apply list_elem_of_fmap. by exists (d, v').
    + by apply (IH _ Hnd Hd Hg Hin).
Qed.

(** *** The entries of a document and of a store *)

Lemma NoDup_fst_unique {A B} (l : list (A * B)) k a b :
  NoDup l.*1 → (k, a) ∈ l → (k, b) ∈ l → a = b.
Proof.
  induction l as [|[k0 a0] l IH]; intros Hnd Ha Hb.
  - by apply elem_of_nil in Ha.
  - simpl in Hnd. apply NoDup_cons in Hnd as [Hk0 Hnd].
    apply elem_of_cons in Ha as [Ha|Ha];
      apply elem_of_cons in Hb as [Hb|Hb]; simplify_eq; [done| | |by apply IH].
    + exfalso. apply Hk0. apply list_elem_of_fmap. by exists (k0, b).
    + exfalso. apply Hk0. apply list_elem_of_fmap. by exists (k0, a).
Qed.

Lemma elem_of_triples dates d g v :
  (d, g, v) ∈ triples (PDict dates) ↔
  ∃ val, (d, val) ∈ dates ∧ (g, v) ∈ games_of val.
Proof.
  unfold triples. simpl. rewrite list_elem_of_bind. split.
  - intros ([d0 val] & Hin & Hd). apply list_elem_of_fmap in Hin as ([g0 v0] & E & Hg).
    simpl in *. injection E as -> -> ->. eauto.
  - intros (val & Hd & Hg). exists (d, val). split; [|done].
    apply list_elem_of_fmap. by exists (g, v).
Qed.

Lemma elem_of_triples_dump (u : store) (d g : pystr) (v : pyval) :
  (d, g, v) ∈ triples (dump u) ↔ leaf u d g = Some v.
Proof.
  unfold dump. rewrite elem_of_triples. unfold leaf. split.
  - intros (val & Hd & Hg). apply list_elem_of_fmap in Hd as ([d0 gm] & E & Hd).
    simpl in E. injection E as -> ->. apply elem_of_map_to_list in Hd.
    rewrite Hd. simpl. by apply elem_of_map_to_list.
  - intros H. destruct (u !! d) as [gm|] eqn:Hd; [|done]. simpl in H.
    exists (PDict (map_to_list gm)). split.
    + apply list_elem_of_fmap. exists (d, gm). split; [done|].
      by apply elem_of_map_to_list.
    + simpl. by apply elem_of_map_to_list.
Qed.

Lemma NoDup_triples dates :
  NoDup dates.*1 →
  (∀ d val, (d, val) ∈ dates → NoDup (games_of val).*1) →
  NoDup (triples (PDict dates)).
Proof.
  intros Hd Hg. unfold triples. simpl. apply NoDup_bind.
  - intros [d1 v1] [d2 v2] [[d g] v] H1 H2 Hy1 Hy2. simpl in *.
    apply list_elem_of_fmap in Hy1 as (? & [= -> _ _] & _).
    apply list_elem_of_fmap in Hy2 as (? & [= -> _ _] & _).
    f_equal. by apply (NoDup_fst_unique dates d2).
  - intros [d val] Hin. simpl. apply NoDup_fmap_2_strong.
    + intros [g1 x1] [g2 x2] _ _ [= -> ->]. done.
    + eapply NoDup_fmap_1, Hg, Hin.
  - by eapply NoDup_fmap_1.
Qed.

Lemma well_formed_NoDup_triples doc : well_formed doc → NoDup (triples doc).
Proof.
  intros (dates & -> & Hd & Hg). apply NoDup_triples; [done|].
  intros d val Hin. rewrite Forall_forall in Hg.
  destruct (Hg _ Hin) as (games & E & Hnd & _). simpl in E. by subst val.
Qed.

Lemma dump_NoDup_triples (u : store) : NoDup (triples (dump u)).
Proof.
  unfold dump. apply NoDup_triples.
  - rewrite <- list_fmap_compose.
    replace ((map_to_list u).*1) with (fst ∘ (λ dg : pystr * gmap pystr pyval,
      (dg.1, PDict (map_to_list dg.2))) <$> map_to_list u)
      by (by apply list_fmap_ext).
    rewrite list_fmap_compose, <- list_fmap_compose.
    apply NoDup_fst_map_to_list.
  - intros d val Hin. apply list_elem_of_fmap in Hin as ([d0 gm] & [= -> ->] & _).
    simpl. apply NoDup_fst_map_to_list.
Qed.

Lemma leaf_load_all_triple dates u d g v :
  well_formed (PDict dates) → (d, g, v) ∈ triples (PDict dates) →
  leaf (load_all dates u) d g = Some v.
Proof.
  intros (? & [= <-] & Hd & Hg) (val & Hin & Hv)%elem_of_triples.
  rewrite Forall_forall in Hg.
  destruct (Hg _ Hin) as (games & E & Hnd & _). simpl in E. subst val.
  by eapply leaf_load_all_in.
Qed.

Lemma leaf_load_all_absent dates u d g :
  (∀ v, (d, g, v) ∉ triples (PDict dates)) →
  leaf (load_all dates u) d g = leaf u d g.
Proof.
  intros H. apply leaf_load_all_other. intros val Hin Hg.
  apply list_elem_of_fmap in Hg as ([g0 v] & -> & Hg).
  apply (H v). apply elem_of_triples. eauto.
Qed.

Lemma load_data_well_formed st dates :
  well_formed (PDict dates) → disk st = Content (PDict dates) →
  load_data st = Ret tt (set_usage (load_all dates (usage st)) st).
Proof.
  intros (? & [= <-] & _ & Hg) Hd. rewrite (load_data_content st dates Hd).
  by rewrite load_dates_well_formed.
Qed.

Lemma leaf_load_all_empty dates d g v :
  well_formed (PDict dates) →
  leaf (load_all dates ∅) d g = Some v ↔ (d, g, v) ∈ triples (PDict dates).
Proof.
  intros Hwf. split; [|by apply leaf_load_all_triple].
  intros Hleaf.
  destruct (decide ((d, g) ∈ (triples (PDict dates)).*1)) as [Hin|Hout].
  - apply list_elem_of_fmap in Hin as ([[d' g'] v'] & [= <- <-] & Hin).
    rewrite (leaf_load_all_triple dates ∅ d g v' Hwf Hin) in Hleaf.
    by injection Hleaf as <-.
  - rewrite leaf_load_all_absent, leaf_empty in Hleaf; [done|].
    intros v' Hin. apply Hout. apply list_elem_of_fmap. by exists (d, g, v').
Qed.

Lemma new_tracker_nonneg doc :
  well_formed doc →
  (∀ d g v, (d, g, v) ∈ triples doc → ∃ x, v = PNum x ∧ 0 ≤ x) →
  ∃ st', new_tracker (Content doc) = Ret tt st' ∧
         nonneg (usage st') ∧ start_time st' = None.
Proof.
  intros Hwf Hleaves. pose proof Hwf as (dates & -> & _).
  eexists. split; [by apply (load_data_well_formed (blank _) dates)|].
  split; [|done]. intros d g v Hleaf. simpl in Hleaf.
  apply leaf_load_all_empty in Hleaf; [|done]. by apply (Hleaves d g).
Qed.

(** C5. Loading a well-formed document sets every leaf the document holds
    to the document's value, whatever the store held there before, and
    leaves every other leaf of the store alone: a replacement, never a sum.
    With the backing store {"2024-01-01": {"Dota 2": 120}}, a new session
    of 60 seconds for "Dota 2" recorded on 2024-01-02 and a flush leave
    the document {"2024-01-01": {"Dota 2": 120}, "2024-01-02": {"Dota 2":
    60}}, its two members in some order. *)
Theorem load_replaces_then_record_adds :
  (∀ st doc, well_formed doc → disk st = Content doc →
     ∃ st', load_data st = Ret tt st' ∧
            trace st' = trace st ∧
            (∀ d g v, (d, g, v) ∈ triples doc → leaf (usage st') d g = Some v) ∧
            (∀ d g, (∀ v, (d, g, v) ∉ triples doc) →
               leaf (usage st') d g = leaf (usage st) d g)) ∧
  (let day1 := lit "2024-01-01" in
   let day2 := lit "2024-01-02" in
   let dota := lit "Dota 2" in
   ∃ st1 st2 st3 members,
     new_tracker (Content (PDict [(day1, PDict [(dota, PNum 120)])])) = Ret tt st1 ∧
     record_session day2 dota 60 st1 = Ret tt st2 ∧
     save_data Written st2 = Ret tt st3 ∧
     disk st3 = Content (PDict members) ∧
     members ≡ₚ [(day1, PDict [(dota, PNum 120)]); (day2, PDict [(dota, PNum 60)])]).
Proof.
  split.
  - intros st doc Hwf Hd. pose proof Hwf as (dates & -> & _).
    exists (set_usage (load_all dates (usage st)) st).
    split; [by apply load_data_well_formed|]. split; [done|]. simpl. split.
    + intros d g v Hin. by apply leaf_load_all_triple.
    + intros d g Hout. by apply leaf_load_all_absent.
  - simpl. eexists. eexists. eexists. eexists.
    split; [reflexivity|]. split; [reflexivity|]. split; [reflexivity|].
    split; [reflexivity|]. vm_compute. apply perm_swap.
Qed.


(** C7. Saving right after loading a well-formed document writes a
    document with the same [(date, title, seconds)] entries as the
    original. *)
Theorem save_after_load_same_entries doc :
  well_formed doc →
  ∃ st' doc',
    (load_data ;; save_data Written) (blank (Content doc)) = Ret tt st' ∧
    disk st' = Content doc' ∧
    trace st' = [Wrote doc'] ∧
    (∀ d g v, (d, g, v) ∈ triples doc' ↔ (d, g, v) ∈ triples doc) ∧
    triples doc' ≡ₚ triples doc.
Proof.
  intros Hwf. pose proof Hwf as (dates & -> & _).
  assert (∀ d g v, (d, g, v) ∈ triples (dump (load_all dates ∅)) ↔
                   (d, g, v) ∈ triples (PDict dates)) as Hsame.
  { intros d g v. rewrite elem_of_triples_dump. by apply leaf_load_all_empty. }
  eexists. eexists. split.
  - unfold bind. by rewrite (load_data_well_formed (blank _) dates Hwf eq_refl).
  - simpl. split; [done|]. split; [done|]. split; [exact Hsame|].
    apply NoDup_Permutation;
      [apply dump_NoDup_triples|by apply well_formed_NoDup_triples|].
    intros [[d g] v]. apply Hsame.
Qed.

End PersistenceFacts.

Lemma save_after_load_same_entries_witness :
  let doc := PDict [(lit "2024-01-01", PDict [(lit "Dota 2", PNum 120)]);
                    (lit "2024-01-02", PDict [])] in
  well_formed doc ∧
  ∃ st' doc',
    (load_data ;; save_data Written) (blank (Content doc)) = Ret tt st' ∧
    disk st' = Content doc' ∧
    trace st' = [Wrote doc'] ∧
    (∀ d g v, (d, g, v) ∈ triples doc' ↔ (d, g, v) ∈ triples doc) ∧
    triples doc' ≡ₚ triples doc.
Proof.
  simpl.
  assert (well_formed
            (PDict [(lit "2024-01-01", PDict [(lit "Dota 2", PNum 120)]);
                    (lit "2024-01-02", PDict [])])) as Hwf.
  { eexists. split; [reflexivity|]. split.
    - apply NoDup_cons. split; [|apply NoDup_singleton].
      rewrite list_elem_of_singleton. discriminate.
    - repeat constructor; simpl.
      + eexists. split; [reflexivity|]. split.
        * apply NoDup_singleton.
        * repeat constructor. by eexists.
      + eexists. split; [reflexivity|]. split; constructor. }
  split; [exact Hwf|]. exact (save_after_load_same_entries _ Hwf).
Defined.

(** The saved document itself may differ from the loaded one: a date with
    no game is not copied into the store, so it is not written back. *)
Lemma save_after_load_drops_empty_date :
  let doc := PDict [(lit "2024-01-02", PDict [])] in
  ∃ st', (load_data ;; save_data Written) (blank (Content doc)) = Ret tt st' ∧
         disk st' = Content (PDict []).
Proof. simpl. eexists. split; reflexivity. Qed.


(** ** Whole runs *)

Section RunFacts.
Context {UD : UnicodeData}.

(** From a well-formed backing store whose numbers are all [≥ 0] (or from
    none), with a clock that never goes backwards, the program runs to its
    end and every leaf of the store it leaves is a number [≥ 0]. *)
Lemma main_nonneg f t0 ticks sd :
  f = NoFile ∨
  (∃ doc, f = Content doc ∧ well_formed doc ∧
          ∀ d g v, (d, g, v) ∈ triples doc → ∃ x, v = PNum x ∧ 0 ≤ x) →
  never_backwards t0 ticks sd →
  ∃ st', main f t0 ticks sd = Ret tt st' ∧ nonneg (usage st').
Proof.
  intros Hf Hclock.
  assert (∃ st1, load_data (blank f) = Ret tt st1 ∧
                 nonneg (usage st1) ∧ start_time st1 = None)
    as (st1 & E1 & Hu1 & Hs1).
  { destruct Hf as [->|(doc & -> & Hwf & Hleaves)].
    - exists (blank NoFile). split; [done|]. split; [apply nonneg_empty|done].
    - by apply new_tracker_nonneg. }
  unfold main, bind. rewrite E1. apply track_nonneg; [done| |done].
  intros s. by rewrite Hs1.
Qed.

(** The scenario of the specification: nothing, then "Steam - CS:GO" twice,
    then "Notepad", at 0, 15, 30 and 45 seconds. One session of 30 seconds
    is recorded for "Steam - CS:GO"; "Notepad" is never tracked. *)
Lemma steam_session_scenario :
  let day := lit "2024-01-02" in
  let steam := lit "Steam - CS:GO" in
  let turn w t := {| window := w; now := t; today := day; write := Written |} in
  ∃ st', main NoFile 0
           [turn None 0; turn (Some steam) 15; turn (Some steam) 30;
            turn (Some (lit "Notepad")) 45]
           (stop_at 60) = Ret tt st' ∧
         triples (dump (usage st')) = [(day, steam, PNum 30)] ∧
         session_of st' = Idle.
Proof. simpl. eexists. split; [reflexivity|]. split; reflexivity. Qed.

End RunFacts.

(** ** The theorems at concrete inputs *)


Lemma record_session_adds_at_close_date_witness :
  let st := blank NoFile in
  let date := lit "2024-01-02" in
  let title := lit "Dota 2" in
  seconds (usage st) date title = PNum 0 ∧
  (∃ st', record_session date title 60 st = Ret tt st' ∧
          leaf (usage st') date title = Some (PNum (0 + 60)) ∧
          (∀ date' title', (date, title) ≠ (date', title') →
             leaf (usage st') date' title' = leaf (usage st) date' title') ∧
          (∀ d', ∃ st'', record_session date title d' st' = Ret tt st'' ∧
             leaf (usage st'') date title = Some (PNum (0 + 60 + d')))) ∧
  (∀ o1 o2,
     current_game st = None →
     window o1 = Some title → is_game (Some title) = true → now o1 ≠ 0 →
     is_game (window o2) = false → today o2 = date →
     ∃ st', (observe o1 ;; observe o2)%py st = Ret tt st' ∧
            leaf (usage st') (today o2) title =
              Some (PNum (0 + (now o2 - now o1))) ∧
            (∀ date' title', (today o2, title) ≠ (date', title') →
               leaf (usage st') date' title' = leaf (usage st) date' title')).
Proof.
  simpl. split; [reflexivity|].
  exact (record_session_adds_at_close_date
           (blank NoFile) (lit "2024-01-02") (lit "Dota 2") 60 0 eq_refl).
Defined.

Lemma shutdown_records_then_flushes_once_witness :
  let st := tracking (lit "Valorant") 1000 in
  let sd := stop_at 1100 in
  let t := lit "Valorant" in
  (current_game st = Some t ∧ t ≠ [] ∧ start_time st = Some 1000 ∧
   1000 ≠ 0 ∧ numbers (usage st)) ∧
  ∃ x st',
    seconds (usage st) (stop_today sd) t = PNum x ∧
    shutdown sd st = Ret tt st' ∧
    usage st' = put (usage st) (stop_today sd) t (PNum (x + (stop_now sd - 1000))) ∧
    (∀ date' title', (stop_today sd, t) ≠ (date', title') →
       leaf (usage st') date' title' = leaf (usage st) date' title') ∧
    session_of st' = Active t 1000 ∧
    flushes (trace st') = S (flushes (trace st)) ∧
    (stop_write sd = Written → disk st' = Content (dump (usage st'))) ∧
    (stop_now sd = 1000 + 100 →
       seconds (usage st') (stop_today sd) t = PNum (x + 100)).
Proof.
  simpl.
  assert (numbers (usage (tracking (lit "Valorant") 1000))) as Hn.
  { intros d g v. simpl. by rewrite leaf_empty. }
  assert (lit "Valorant" ≠ []) as Ht by discriminate.
  assert (1000 ≠ 0) as Hs by discriminate.
  split; [done|].
  exact (shutdown_records_then_flushes_once
           (tracking (lit "Valorant") 1000) (stop_at 1100)
           (lit "Valorant") 1000 eq_refl Ht eq_refl Hs Hn).
Defined.

(** C3 (as stated) fails on the session fields: after [shutdown] the
    session that was open is still in them, the tracker is not Idle. And a
    session whose start is the instant zero is not recorded at all. *)
Lemma shutdown_leaves_session_open :
  let day := lit "2024-01-02" in
  let valorant := lit "Valorant" in
  (∃ st', shutdown (stop_at 1100) (tracking valorant 1000) = Ret tt st' ∧
          leaf (usage st') day valorant = Some (PNum 100) ∧
          session_of st' = Active valorant 1000) ∧
  (∃ st', shutdown (stop_at 100) (tracking valorant 0) = Ret tt st' ∧
          leaf (usage st') day valorant = None ∧
          flushes (trace st') = 1%nat).
Proof.
  simpl. split; eexists; (split; [reflexivity|]); split; reflexivity.
Qed.

Lemma durations_stay_nonneg_witness :
  let st := tracking (lit "Valorant") 1000 in
  nonneg (usage st) ∧
  (∀ date title d, 0 ≤ d →
     ∃ st', record_session date title d st = Ret tt st' ∧ nonneg (usage st')) ∧
  (∀ o last_save, (∀ s, start_time st = Some s → s ≤ now o) →
     ∃ ls' st', track_step o last_save st = Ret ls' st' ∧ nonneg (usage st')) ∧
  (∀ sd, (∀ s, start_time st = Some s → s ≤ stop_now sd) →
     ∃ st', shutdown sd st = Ret tt st' ∧ nonneg (usage st')).
Proof.
  simpl. split; [apply nonneg_empty|].
  exact (durations_stay_nonneg (tracking (lit "Valorant") 1000) nonneg_empty).
Defined.

Lemma load_replaces_then_record_adds_witness :
  let day := lit "2024-01-01" in
  let dota := lit "Dota 2" in
  let doc := PDict [(day, PDict [(dota, PNum 120)])] in
  let st := set_usage (put ∅ day dota (PNum 7)) (blank (Content doc)) in
  well_formed doc ∧ disk st = Content doc ∧
  ∃ st', load_data st = Ret tt st' ∧
         trace st' = trace st ∧
         (∀ d g v, (d, g, v) ∈ triples doc → leaf (usage st') d g = Some v) ∧
         (∀ d g, (∀ v, (d, g, v) ∉ triples doc) →
            leaf (usage st') d g = leaf (usage st) d g).
Proof.
  simpl.
  assert (well_formed (PDict [(lit "2024-01-01", PDict [(lit "Dota 2", PNum 120)])]))
    as Hwf.
  { eexists. split; [reflexivity|]. split; [apply NoDup_singleton|].
    repeat constructor. eexists. split; [reflexivity|].
    split; [apply NoDup_singleton|]. repeat constructor. by eexists. }
  split; [exact Hwf|]. split; [reflexivity|].
  exact (proj1 load_replaces_then_record_adds
           (set_usage (put ∅ (lit "2024-01-01") (lit "Dota 2") (PNum 7))
                      (blank (Content
                         (PDict [(lit "2024-01-01", PDict [(lit "Dota 2", PNum 120)])]))))
           _ Hwf eq_refl).
Defined.


(** * More of the program: whole runs, restarts, the report *)

(** ** Sums over the store *)

Section SumFacts.

Lemma foldr_sum_perm {A} (f : A → Z) (l l' : list A) :
  l ≡ₚ l' →
  foldr (λ x acc, f x + acc) 0 l = foldr (λ x acc, f x + acc) 0 l'.
Proof. induction 1; simpl; lia. Qed.

Lemma msum_empty {A} (f : A → Z) : msum f ∅ = 0.
Proof. unfold msum. by rewrite map_to_list_empty. Qed.

Lemma msum_delete {A} (f : A → Z) (m : gmap pystr A) k a :
  m !! k = Some a → msum f m = f a + msum f (delete k m).
Proof.
  intros H. unfold msum.
  by rewrite <- (foldr_sum_perm _ _ _ (map_to_list_delete m k a H)).
Qed.

Lemma msum_insert {A} (f : A → Z) (m : gmap pystr A) k a :
  msum f (<[k:=a]> m) = f a + msum f (delete k m).
Proof.
  rewrite (msum_delete f (<[k:=a]> m) k a) by apply lookup_insert_eq.
  by rewrite delete_insert_eq.
Qed.

Lemma day_total_insert gm g v :
  day_total (<[g:=v]> gm) =
  day_total gm - num_of (default (PNum 0) (gm !! g)) + num_of v.
Proof.
  unfold day_total. rewrite msum_insert.
  destruct (gm !! g) as [old|] eqn:E; simpl.
  - rewrite (msum_delete num_of gm g old E). lia.
  - rewrite (delete_id gm g E). lia.
Qed.

Lemma total_put u d g v :
  total (put u d g v) = total u - num_of (seconds u d g) + num_of v.
Proof.
  unfold total, put, seconds, leaf. rewrite msum_insert, day_total_insert.
  destruct (u !! d) as [gm|] eqn:E; simpl.
  - rewrite (msum_delete day_total u d gm E). lia.
  - rewrite (delete_id u d E), lookup_empty. simpl.
    unfold day_total. rewrite msum_empty. lia.
Qed.

(** What [store_fits] gives: every leaf, and the sum of every date, is
    within the range of floats. *)
Lemma msum_nonneg {A} (f : A → Z) (m : gmap pystr A) :
  (∀ a, 0 ≤ f a) → 0 ≤ msum f m.
Proof.
  intros Hf. unfold msum. induction (map_to_list m) as [|kv l IH]; simpl; [done|].
  specialize (Hf kv.2). lia.
Qed.

Lemma msum_abs (m : gmap pystr pyval) :
  Z.abs (msum num_of m) ≤ msum (λ v, Z.abs (num_of v)) m.
Proof.
  unfold msum. induction (map_to_list m) as [|kv l IH]; simpl; lia.
Qed.

Lemma store_fits_leaf (u : store) (d g : pystr) (v : pyval) :
  store_fits u = true → leaf u d g = Some v →
  Z.abs (num_of v) < float_limit.
Proof.
  intros Hfit Hleaf. unfold leaf in Hleaf.
  destruct (u !! d) as [gm|] eqn:Hd; [|done]. simpl in Hleaf.
  unfold store_fits in Hfit. rewrite forallb_forall in Hfit.
  assert (In (d, gm) (map_to_list u)) as Hin
    by (apply list_elem_of_In; by apply elem_of_map_to_list).
  specialize (Hfit (d, gm) Hin). unfold day_fits in Hfit. simpl in Hfit.
  apply Z.ltb_lt in Hfit.
  rewrite (msum_delete _ gm g v Hleaf) in Hfit.
  pose proof (msum_nonneg (λ v, Z.abs (num_of v)) (delete g gm)
                (λ a, Z.abs_nonneg _)).
  lia.
Qed.

Lemma store_fits_day (u : store) (d : pystr) (gm : gmap pystr pyval) :
  store_fits u = true → u !! d = Some gm →
  Z.abs (day_total gm) < float_limit.
Proof.
  intros Hfit Hd. unfold store_fits in Hfit. rewrite forallb_forall in Hfit.
  assert (In (d, gm) (map_to_list u)) as Hin
    by (apply list_elem_of_In; by apply elem_of_map_to_list).
  specialize (Hfit (d, gm) Hin). unfold day_fits in Hfit. simpl in Hfit.
  apply Z.ltb_lt in Hfit. pose proof (msum_abs gm). unfold day_total. lia.
Qed.

End SumFacts.

(** ** One observation, as a function *)

Section StepFacts.
Context {UD : UnicodeData}.

Lemma open_session_opened st : open_session st = Ret (opened st) st.
Proof. reflexivity. Qed.

Lemma opened_fields st st' :
  current_game st' = current_game st → start_time st' = start_time st →
  opened st' = opened st.
Proof. intros Hg Hs. unfold opened. by rewrite Hg, Hs. Qed.

Lemma opened_Some st t s :
  opened st = Some (t, s) →
  current_game st = Some t ∧ t ≠ [] ∧ start_time st = Some s ∧ s ≠ 0.
Proof.
  unfold opened. destruct (current_game st) as [[|c g]|]; [done| |done].
  destruct (start_time st) as [s'|]; [|done].
  destruct (Z.eqb_spec s' 0); [done|]. by intros [= <- <-].
Qed.

Lemma numbers_usage_after st o : numbers (usage st) → numbers (usage_after o st).
Proof.
  intros Hn. unfold usage_after.
  destruct (recorded_by o st) as [[t s]|]; [by apply numbers_put|done].
Qed.

(** [observe] on a store of numbers: it returns, and what it leaves is given
    by [usage_after] and [fields_after]; it writes nothing. *)
Lemma observe_spec st o :
  numbers (usage st) →
  ∃ st', observe o st = Ret tt st' ∧
         usage st' = usage_after o st ∧
         (current_game st', start_time st') = fields_after o st ∧
         disk st' = disk st ∧
         flushes (trace st') = flushes (trace st).
Proof.
  intros Hn. unfold observe, usage_after, fields_after, recorded_by.
  destruct (is_game (window o)).
  - unfold bind at 1. unfold get at 1.
    destruct (bool_decide (window o ≠ current_game st)); [|by exists st].
    unfold bind at 1. rewrite open_session_opened.
    destruct (opened st) as [[t s]|].
    + destruct (numbers_seconds (usage st) (today o) t Hn) as [x Hx].
      unfold bind at 1. rewrite (record_session_num st _ _ _ x Hx).
      eexists. split; [reflexivity|]. simpl. rewrite Hx. simpl.
      repeat split. by rewrite flushes_app, Nat.add_0_r.
    + eexists. split; [reflexivity|]. simpl.
      repeat split. by rewrite flushes_app, Nat.add_0_r.
  - unfold bind at 1. rewrite open_session_opened.
    destruct (opened st) as [[t s]|]; [|by exists st].
    destruct (numbers_seconds (usage st) (today o) t Hn) as [x Hx].
    unfold bind at 1. rewrite (record_session_num st _ _ _ x Hx).
    eexists. split; [reflexivity|]. simpl. rewrite Hx. simpl.
    repeat split. by rewrite flushes_app, Nat.add_0_r.
Qed.

(** The whole turn: the observation, then the save when more than 300
    seconds have passed since the last one. *)
Lemma track_step_spec st o last_save :
  numbers (usage st) →
  ∃ ls' st', track_step o last_save st = Ret ls' st' ∧
             usage st' = usage_after o st ∧
             (current_game st', start_time st') = fields_after o st ∧
             if 300 <? now o - last_save
             then ls' = now o ∧
                  flushes (trace st') = S (flushes (trace st)) ∧
                  (write o = Written → disk st' = Content (dump (usage st')))
             else ls' = last_save ∧
                  flushes (trace st') = flushes (trace st) ∧
                  disk st' = disk st.
Proof.
  intros Hn. destruct (observe_spec st o Hn) as (st1 & E & Hu & Hf & Hd & Hfl).
  unfold track_step, bind. rewrite E. unfold autosave.
  destruct (300 <? now o - last_save).
  - destruct (save_data_spec (write o) st1) as (st2 & E2 & Hg2 & Hs2 & Hu2 & Hf2 & Hd2).
    unfold bind. rewrite E2. exists (now o), st2.
    split; [done|]. rewrite Hu2, Hg2, Hs2, Hf2, Hfl. by repeat split.
  - by exists last_save, st1.
Qed.

End StepFacts.

(** ** Whole runs on a store of numbers *)

Section RunOnNumbers.
Context {UD : UnicodeData}.

Lemma numbers_usage_at_stop st sd : numbers (usage st) → numbers (usage_at_stop sd st).
Proof.
  intros Hn. unfold usage_at_stop.
  destruct (opened st) as [[t s]|]; [by apply numbers_put|done].
Qed.

Lemma shutdown_spec st sd :
  numbers (usage st) →
  ∃ st', shutdown sd st = Ret tt st' ∧
         usage st' = usage_at_stop sd st ∧
         current_game st' = current_game st ∧
         start_time st' = start_time st ∧
         flushes (trace st') = S (flushes (trace st)) ∧
         (stop_write sd = Written → disk st' = Content (dump (usage st'))).
Proof.
  intros Hn.
  assert (∃ st1, (x ← open_session;
                  match x with
                  | Some (game, start) =>
                      record_session (stop_today sd) game (stop_now sd - start)
                  | None => ret tt
                  end) st = Ret tt st1 ∧
                 st1 = set_usage (usage_at_stop sd st) st) as (st1 & E1 & Hst1).
  { unfold bind, usage_at_stop. rewrite open_session_opened.
    destruct (opened st) as [[t s]|].
    - destruct (numbers_seconds (usage st) (stop_today sd) t Hn) as [x Hx].
      rewrite (record_session_num st _ _ _ x Hx), Hx. by eexists.
    - exists st. by rewrite set_usage_id. }
  destruct (shutdown_after_record sd st st1) as (st' & E & Hg & Hs & Hu & Hf & Hd).
  { subst st1. simpl. by apply numbers_usage_at_stop. }
  { exact E1. }
  exists st'. subst st1. simpl in *. rewrite Hu. by repeat split.
Qed.

(** Induction over the turns of the loop, for an invariant of the turn that
    does not look at the clock, and for one that does. *)
Lemma track_loop_run (I : Z → state → Prop) ticks :
  (∀ ls st o, I ls st →
     ∃ ls' st', track_step o ls st = Ret ls' st' ∧ I ls' st') →
  ∀ ls st, I ls st →
    ∃ ls' st', track_loop ticks ls st = Raise KeyboardInterrupt st' ∧ I ls' st'.
Proof.
  intros Hstep. induction ticks as [|o ticks IH]; intros ls st HI; simpl.
  - by exists ls, st.
  - destruct (Hstep ls st o HI) as (ls1 & st1 & E & HI1).
    unfold bind. rewrite E. by apply IH.
Qed.

Lemma track_loop_run_clock (I : Z → Z → state → Prop) ticks sd :
  (∀ t ls st o, I t ls st → t ≤ now o →
     ∃ ls' st', track_step o ls st = Ret ls' st' ∧ I (now o) ls' st') →
  ∀ t ls st, I t ls st → never_backwards t ticks sd →
    ∃ t' ls' st', track_loop ticks ls st = Raise KeyboardInterrupt st' ∧
                  I t' ls' st' ∧ t' ≤ stop_now sd.
Proof.
  intros Hstep. induction ticks as [|o ticks IH]; intros t ls st HI Hclock;
    simpl in *.
  - by exists t, ls, st.
  - destruct Hclock as [Ht Hclock].
    destruct (Hstep t ls st o HI Ht) as (ls1 & st1 & E & HI1).
    unfold bind. rewrite E. by apply (IH (now o)).
Qed.

Lemma track_of_loop t0 ticks sd st st1 :
  track_loop ticks t0 (emit Say_detecting (emit Say_started st)) =
    Raise KeyboardInterrupt st1 →
  track t0 ticks sd st = shutdown sd st1.
Proof. intros E. unfold track, bind, print, modify, try_except. by rewrite E. Qed.

End RunOnNumbers.

(** ** Saving, then starting again *)

Section RestartFacts.
Context {UD : UnicodeData}.

Lemma no_empty_day_empty : no_empty_day ∅.
Proof. intros d gm. by rewrite lookup_empty. Qed.

Lemma no_empty_day_put u d g v : no_empty_day u → no_empty_day (put u d g v).
Proof.
  intros H d' gm. unfold put. destruct (decide (d = d')) as [<-|Hne].
  - rewrite lookup_insert_eq. intros [= <-]. apply insert_non_empty.
  - rewrite lookup_insert_ne by done. apply H.
Qed.

Lemma no_empty_day_load_games date games u :
  no_empty_day u → no_empty_day (load_games date games u).
Proof.
  revert u. induction games as [|[g v] games IH]; intros u H; [done|].
  simpl. by apply IH, no_empty_day_put.
Qed.

Lemma no_empty_day_load_all dates u :
  no_empty_day u → no_empty_day (load_all dates u).
Proof.
  revert u. induction dates as [|[d v] dates IH]; intros u H; [done|].
  unfold load_all in *. simpl. by apply IH, no_empty_day_load_games.
Qed.

Lemma no_empty_day_usage_after st o :
  no_empty_day (usage st) → no_empty_day (usage_after o st).
Proof.
  intros H. unfold usage_after.
  destruct (recorded_by o st) as [[t s]|]; [by apply no_empty_day_put|done].
Qed.

Lemma no_empty_day_usage_at_stop st sd :
  no_empty_day (usage st) → no_empty_day (usage_at_stop sd st).
Proof.
  intros H. unfold usage_at_stop.
  destruct (opened st) as [[t s]|]; [by apply no_empty_day_put|done].
Qed.

(** Two stores with no empty date and the same leaves are the same store. *)
Lemma store_ext (u u' : store) :
  no_empty_day u → no_empty_day u' →
  (∀ d g, leaf u' d g = leaf u d g) → u' = u.
Proof.
  intros Hu Hu' Hleaf. apply map_eq. intros d.
  pose proof (Hleaf d) as Hd. unfold leaf in Hd.
  destruct (u' !! d) as [gm'|] eqn:E', (u !! d) as [gm|] eqn:E; simpl in Hd.
  - f_equal. by apply map_eq.
  - destruct (map_choose gm' (Hu' d gm' E')) as (g & v & Hg).
    specialize (Hd g). by rewrite Hg in Hd.
  - destruct (map_choose gm (Hu d gm E)) as (g & v & Hg).
    specialize (Hd g). by rewrite Hg in Hd.
  - done.
Qed.

Lemma load_dates_objects dates u :
  Forall (λ dg, ∃ games, dg.2 = PDict games) dates →
  load_dates dates u = (load_all dates u, None).
Proof.
  intros H. revert u. induction H as [|[d v] dates Hv _ IH]; intros u; [done|].
  destruct Hv as (games & Hv). simpl in Hv. subst v. apply IH.
Qed.

Lemma dump_members_objects (u : store) :
  Forall (λ dg : pystr * pyval, ∃ games, dg.2 = PDict games) (games_of (dump u)).
Proof.
  unfold dump. simpl. apply Forall_fmap, Forall_forall. intros [d gm] _.
  simpl. eauto.
Qed.

Lemma dump_members_NoDup (u : store) : NoDup (games_of (dump u)).*1.
Proof.
  unfold dump. simpl. rewrite <- list_fmap_compose.
  replace (fst ∘ (λ dg : pystr * gmap pystr pyval,
             (dg.1, PDict (map_to_list dg.2))) <$> map_to_list u)
    with ((map_to_list u).*1) by (by apply list_fmap_ext).
  apply NoDup_fst_map_to_list.
Qed.

Lemma leaf_load_dump (u u0 : store) (d g : pystr) :
  leaf (load_all (games_of (dump u)) u0) d g =
  match leaf u d g with
  | Some v => Some v
  | None => leaf u0 d g
  end.
Proof.
  destruct (leaf u d g) as [v|] eqn:E.
  - apply elem_of_triples_dump in E. unfold dump in E.
    apply elem_of_triples in E as (val & Hin & Hg).
    pose proof Hin as Hin'.
    apply list_elem_of_fmap in Hin' as ([d0 gm] & [= -> ->] & _).
    simpl in Hg. eapply leaf_load_all_in; [apply dump_members_NoDup|exact Hin| |done].
    apply NoDup_fst_map_to_list.
  - apply leaf_load_all_absent. intros v Hin.
    change (PDict (games_of (dump u))) with (dump u) in Hin.
    apply elem_of_triples_dump in Hin. congruence.
Qed.

Lemma load_data_dump (st : state) (u : store) :
  disk st = Content (dump u) →
  load_data st = Ret tt (set_usage (load_all (games_of (dump u)) (usage st)) st).
Proof.
  intros Hd. rewrite (load_data_content st (games_of (dump u)) Hd).
  by rewrite load_dates_objects by apply dump_members_objects.
Qed.

Lemma leaf_load_dump_empty (u : store) (d g : pystr) :
  leaf (load_all (games_of (dump u)) ∅) d g = leaf u d g.
Proof. rewrite leaf_load_dump, leaf_empty. by destruct (leaf u d g). Qed.

Lemma load_dump_store (u : store) :
  no_empty_day u → load_all (games_of (dump u)) ∅ = u.
Proof.
  intros Hu. apply store_ext; [done| |apply leaf_load_dump_empty].
  apply no_empty_day_load_all, no_empty_day_empty.
Qed.

(** X1. What [save_data] writes, [load_data] reads back: a tracker built on
    the document of a store holds the same leaves as that store, with no
    warning; it holds the very same store when no date of it is empty. *)
Theorem load_after_save_restores (u : store) :
  ∃ st', new_tracker (Content (dump u)) = Ret tt st' ∧
         trace st' = [] ∧
         (∀ d g, leaf (usage st') d g = leaf u d g) ∧
         (no_empty_day u → usage st' = u).
Proof.
  exists (set_usage (load_all (games_of (dump u)) ∅) (blank (Content (dump u)))).
  split; [by apply (load_data_dump (blank _) u)|].
  split; [done|]. split; [apply leaf_load_dump_empty|apply load_dump_store].
Qed.

End RestartFacts.

(** ** A whole run never raises on a store of numbers *)

Section RunTheorems.
Context {UD : UnicodeData}.

Lemma well_formed_triples_numbers dates d g v :
  well_formed (PDict dates) → (d, g, v) ∈ triples (PDict dates) →
  ∃ x, v = PNum x.
Proof.
  intros (? & [= <-] & _ & Hg) (val & Hin & Hv)%elem_of_triples.
  rewrite Forall_forall in Hg.
  destruct (Hg _ Hin) as (games & E & _ & Hnum). simpl in E. subst val.
  rewrite Forall_forall in Hnum. apply (Hnum _ Hv).
Qed.

Lemma new_tracker_file f :
  (∀ doc, f = Content doc → well_formed doc) →
  ∃ st1, load_data (blank f) = Ret tt st1 ∧
         numbers (usage st1) ∧ no_empty_day (usage st1) ∧
         current_game st1 = None ∧ start_time st1 = None ∧
         flushes (trace st1) = 0%nat.
Proof.
  intros Hf. destruct f as [| | |doc].
  - exists (blank NoFile). split; [done|].
    repeat split; [apply nonneg_numbers, nonneg_empty|apply no_empty_day_empty].
  - exists (emit (Warn_load OSError) (blank Unreadable)). split; [done|].
    repeat split; [apply nonneg_numbers, nonneg_empty|apply no_empty_day_empty].
  - exists (emit Warn_corrupted (blank Malformed)). split; [done|].
    repeat split; [apply nonneg_numbers, nonneg_empty|apply no_empty_day_empty].
  - pose proof (Hf doc eq_refl) as Hwf. pose proof Hwf as (dates & -> & _).
    eexists. split; [by apply (load_data_well_formed (blank _) dates)|].
    simpl. repeat split.
    + intros d g v Hleaf. apply leaf_load_all_empty in Hleaf; [|done].
      by eapply well_formed_triples_numbers.
    + apply no_empty_day_load_all, no_empty_day_empty.
Qed.

Lemma track_numbers t0 ticks sd st :
  numbers (usage st) → no_empty_day (usage st) →
  ∃ st', track t0 ticks sd st = Ret tt st' ∧
         numbers (usage st') ∧ no_empty_day (usage st') ∧
         (stop_write sd = Written → disk st' = Content (dump (usage st'))).
Proof.
  intros Hn He.
  destruct (track_loop_run
              (λ _ st, numbers (usage st) ∧ no_empty_day (usage st)) ticks)
    with (ls := t0) (st := emit Say_detecting (emit Say_started st))
    as (ls1 & st1 & E & Hn1 & He1); [|done|].
  { intros ls s o [Hs1 Hs2].
    destruct (track_step_spec s o ls Hs1) as (ls' & s' & Es & Hu & _).
    exists ls', s'. split; [done|]. rewrite Hu.
    split; [by apply numbers_usage_after|by apply no_empty_day_usage_after]. }
  rewrite (track_of_loop _ _ _ _ _ E).
  destruct (shutdown_spec st1 sd Hn1) as (st' & Es & Hu & _ & _ & _ & Hd).
  exists st'. split; [done|]. rewrite Hu.
  split; [by apply numbers_usage_at_stop|].
  split; [by apply no_empty_day_usage_at_stop|]. by rewrite <- Hu.
Qed.

(** X2. What a run leaves, whatever the backing file was: started on a
    file that is missing, unreadable, not JSON, or a well-formed document
    whose numbers fit the range of floats ([store_fits] of what
    [load_data] builds from it), and interrupted while the loop sleeps,
    the run ends with a store that holds only numbers; and when the last
    write goes through, the file holds the document of exactly that
    store, whatever the windows, the clock and the earlier writes were. *)
Theorem run_ends_with_numbers_saved f t0 ticks sd :
  (∀ doc, f = Content doc →
          well_formed doc ∧ store_fits (load_all (games_of doc) ∅) = true) →
  ∃ st', main f t0 ticks sd = Ret tt st' ∧
         numbers (usage st') ∧
         (stop_write sd = Written → disk st' = Content (dump (usage st'))).
Proof.
  intros Hf.
  destruct (new_tracker_file f (λ doc E, proj1 (Hf doc E)))
    as (st1 & E1 & Hn1 & He1 & _).
  destruct (track_numbers t0 ticks sd st1 Hn1 He1) as (st' & E & Hn & _ & Hd).
  exists st'. unfold main, bind. by rewrite E1.
Qed.

(** X3. A run whose last write goes through can be resumed: the tracker
    built next on the file starts with exactly the store the run ended
    with. *)
Theorem restart_resumes_the_store f t0 ticks sd :
  (∀ doc, f = Content doc → well_formed doc) →
  stop_write sd = Written →
  ∃ st' st'', main f t0 ticks sd = Ret tt st' ∧
              new_tracker (disk st') = Ret tt st'' ∧
              usage st'' = usage st' ∧
              session_of st'' = Idle.
Proof.
  intros Hf Hw. destruct (new_tracker_file f Hf) as (st1 & E1 & Hn1 & He1 & _).
  destruct (track_numbers t0 ticks sd st1 Hn1 He1) as (st' & E & Hn & He & Hd).
  exists st', (set_usage (load_all (games_of (dump (usage st'))) ∅)
                         (blank (Content (dump (usage st'))))).
  rewrite (Hd Hw). unfold main, bind. rewrite E1.
  split; [done|]. split; [by apply (load_data_dump (blank _))|].
  split; [by apply load_dump_store|done].
Qed.

End RunTheorems.

(** ** What a run records *)

Section AccountingFacts.
Context {UD : UnicodeData}.

Lemma recorded_by_opened st o t s :
  recorded_by o st = Some (t, s) → opened st = Some (t, s).
Proof.
  unfold recorded_by. destruct (is_game (window o)); [|done].
  by destruct (bool_decide _).
Qed.

Lemma recorded_by_game st o t s :
  tracks_a_game st → recorded_by o st = Some (t, s) → is_game (Some t) = true.
Proof.
  intros Hg Hr. apply recorded_by_opened, opened_Some in Hr as (Hc & _).
  by apply Hg.
Qed.

Lemma tracks_a_game_after st o st' :
  tracks_a_game st →
  (current_game st', start_time st') = fields_after o st →
  tracks_a_game st'.
Proof.
  intros Hg Hf t Ht. unfold fields_after in Hf.
  destruct (is_game (window o)) eqn:Hgame.
  - destruct (bool_decide _); injection Hf as Hc _.
    + rewrite Hc in Ht. by rewrite <- Ht.
    + rewrite Hc in Ht. by apply Hg.
  - destruct (opened st); injection Hf as Hc _.
    + by rewrite Hc in Ht.
    + rewrite Hc in Ht. by apply Hg.
Qed.

Lemma seconds_numbers u d g : numbers u → PNum (num_of (seconds u d g)) = seconds u d g.
Proof. intros Hn. by destruct (numbers_seconds u d g Hn) as [x ->]. Qed.

(** X4. Only games get time: in a whole run, every entry of the store that
    the run creates or changes stands under a title that [is_game] accepts.
    (The tracker starts with no current game, or with one that is a game.) *)
Theorem only_games_get_time t0 ticks sd st :
  numbers (usage st) → tracks_a_game st →
  ∃ st', track t0 ticks sd st = Ret tt st' ∧
         ∀ d g, leaf (usage st') d g ≠ leaf (usage st) d g →
                is_game (Some g) = true.
Proof.
  intros Hn Hg.
  destruct (track_loop_run
              (λ _ s, numbers (usage s) ∧ tracks_a_game s ∧
                      ∀ d g, leaf (usage s) d g ≠ leaf (usage st) d g →
                             is_game (Some g) = true) ticks)
    with (ls := t0) (st := emit Say_detecting (emit Say_started st))
    as (ls1 & st1 & E & Hn1 & Hg1 & Hd1); [|done|].
  { intros ls s o (Hs1 & Hs2 & Hs3).
    destruct (track_step_spec s o ls Hs1) as (ls' & s' & Es & Hu & Hf & _).
    exists ls', s'. split; [done|]. rewrite Hu.
    split; [by apply numbers_usage_after|].
    split; [by eapply tracks_a_game_after|].
    intros d g. unfold usage_after.
    destruct (recorded_by o s) as [[t x]|] eqn:Hr; [|apply Hs3].
    rewrite leaf_put. case_decide as Hk; [|apply Hs3].
    destruct Hk as [_ <-]. intros _. by eapply recorded_by_game. }
  rewrite (track_of_loop _ _ _ _ _ E).
  destruct (shutdown_spec st1 sd Hn1) as (st' & Es & Hu & _).
  exists st'. split; [done|]. rewrite Hu. intros d g. unfold usage_at_stop.
  destruct (opened st1) as [[t x]|] eqn:Ho; [|apply Hd1].
  rewrite leaf_put. case_decide as Hk; [|apply Hd1].
  destruct Hk as [_ <-]. intros _. apply opened_Some in Ho as (Hc & _).
  by apply Hg1.
Qed.

Lemma leaves_grow_refl u : numbers u → leaves_grow u u.
Proof. intros _ d g x Hx. exists x. split; [done|lia]. Qed.

Lemma leaves_grow_put u0 u d g delta :
  numbers u → leaves_grow u0 u → 0 ≤ delta →
  leaves_grow u0 (put u d g (PNum (num_of (seconds u d g) + delta))).
Proof.
  intros Hn Hgrow Hdelta d' g' x Hx.
  destruct (Hgrow d' g' x Hx) as (y & Hy & Hxy).
  rewrite leaf_put. case_decide as Hk.
  - destruct Hk as [<- <-]. eexists. split; [done|].
    unfold seconds. rewrite Hy. simpl. lia.
  - eauto.
Qed.

(** X5. With a clock that never goes backwards, a run only adds time: no
    entry of the store is lost, and none ends smaller than it started. *)
Theorem leaves_only_grow t0 ticks sd st :
  numbers (usage st) →
  (∀ s, start_time st = Some s → s ≤ t0) →
  never_backwards t0 ticks sd →
  ∃ st', track t0 ticks sd st = Ret tt st' ∧
         leaves_grow (usage st) (usage st').
Proof.
  intros Hn Hs Hclock.
  destruct (track_loop_run_clock
              (λ t _ s, numbers (usage s) ∧
                        (∀ x, start_time s = Some x → x ≤ t) ∧
                        leaves_grow (usage st) (usage s)) ticks sd)
    with (t := t0) (ls := t0) (st := emit Say_detecting (emit Say_started st))
    as (t1 & ls1 & st1 & E & (Hn1 & Hs1 & Hg1) & Ht1); [| |done|].
  { intros t ls s o (Hi1 & Hi2 & Hi3) Ht.
    destruct (track_step_spec s o ls Hi1) as (ls' & s' & Es & Hu & Hf & _).
    exists ls', s'. split; [done|]. rewrite Hu.
    split; [by apply numbers_usage_after|]. split.
    - intros x Hx. unfold fields_after in Hf.
      destruct (is_game (window o)); [destruct (bool_decide _)|destruct (opened s)];
        injection Hf as _ Hst; rewrite Hst in Hx;
        first [ discriminate Hx
              | injection Hx as <-; lia
              | specialize (Hi2 x Hx); lia ].
    - unfold usage_after. destruct (recorded_by o s) as [[g x]|] eqn:Hr; [|done].
      apply leaves_grow_put; [done..|].
      apply recorded_by_opened, opened_Some in Hr as (_ & _ & Hst & _).
      specialize (Hi2 x Hst). lia. }
  { split; [done|]. split; [done|]. by apply leaves_grow_refl. }
  rewrite (track_of_loop _ _ _ _ _ E).
  destruct (shutdown_spec st1 sd Hn1) as (st' & Es & Hu & _).
  exists st'. split; [done|]. rewrite Hu. unfold usage_at_stop.
  destruct (opened st1) as [[g x]|] eqn:Ho; [|done].
  apply leaves_grow_put; [done..|].
  apply opened_Some in Ho as (_ & _ & Hst & _). specialize (Hs1 x Hst). lia.
Qed.

(** X6. The loop saves at most once per 300 seconds: with a clock that
    never goes backwards, a run calls [save_data] once in [shutdown] and,
    before that, [k] times in the loop, where [300 k] is at most the time
    between the start of the loop and the shutdown. *)
Theorem periodic_saves_are_spaced t0 ticks sd st :
  numbers (usage st) → never_backwards t0 ticks sd →
  ∃ st' k, track t0 ticks sd st = Ret tt st' ∧
           flushes (trace st') = (flushes (trace st) + k + 1)%nat ∧
           300 * Z.of_nat k ≤ stop_now sd - t0.
Proof.
  intros Hn Hclock.
  destruct (track_loop_run_clock
              (λ t ls s, numbers (usage s) ∧ ls ≤ t ∧
                         ∃ k, flushes (trace s) = (flushes (trace st) + k)%nat ∧
                              300 * Z.of_nat k ≤ ls - t0) ticks sd)
    with (t := t0) (ls := t0) (st := emit Say_detecting (emit Say_started st))
    as (t1 & ls1 & st1 & E & (Hn1 & Hls1 & k & Hk1 & Hk2) & Ht1); [| |done|].
  { intros t ls s o (Hi1 & Hi2 & k & Hk1 & Hk2) Ht.
    destruct (track_step_spec s o ls Hi1) as (ls' & s' & Es & Hu & _ & Hsave).
    exists ls', s'. split; [done|]. rewrite Hu.
    split; [by apply numbers_usage_after|].
    destruct (Z.ltb_spec 300 (now o - ls)).
    - destruct Hsave as (-> & Hfl & _). split; [lia|].
      exists (S k). split; lia.
    - destruct Hsave as (-> & Hfl & _). split; [lia|].
      exists k. split; lia. }
  { split; [done|]. split; [lia|]. exists 0%nat. split; [|lia].
    simpl. rewrite !flushes_app.
    change (flushes [Say_started]) with 0%nat.
    change (flushes [Say_detecting]) with 0%nat. lia. }
  rewrite (track_of_loop _ _ _ _ _ E).
  destruct (shutdown_spec st1 sd Hn1) as (st' & Es & _ & _ & _ & Hfl & _).
  exists st', k. split; [done|]. split; lia.
Qed.

End AccountingFacts.

(** ** Back-to-back sessions *)

Section BalanceFacts.
Context {UD : UnicodeData}.

Lemma total_usage_after st o t s :
  recorded_by o st = Some (t, s) →
  total (usage_after o st) = total (usage st) + (now o - s).
Proof.
  intros Hr. unfold usage_after. rewrite Hr, total_put. simpl. lia.
Qed.

Lemma opened_of_fields st g s :
  current_game st = Some g → g ≠ [] → start_time st = Some s → s ≠ 0 →
  opened st = Some (g, s).
Proof.
  intros Hg Hne Hs Hs0. unfold opened. rewrite Hg, Hs.
  destruct g; [done|]. by destruct (Z.eqb_spec s 0).
Qed.

(** A turn that shows a game while a session is open keeps a session open,
    and keeps the balance "seconds recorded minus start of the session". *)
Lemma game_turn_balance st o last_save t s :
  numbers (usage st) → opened st = Some (t, s) →
  is_game (window o) = true → now o ≠ 0 →
  ∃ ls' st' t' s',
    track_step o last_save st = Ret ls' st' ∧
    numbers (usage st') ∧ opened st' = Some (t', s') ∧
    total (usage st') - s' = total (usage st) - s.
Proof.
  intros Hn Ho Hgame Hnow.
  destruct (track_step_spec st o last_save Hn) as (ls' & st' & E & Hu & Hf & _).
  exists ls', st'.
  assert (numbers (usage st')) as Hn' by (rewrite Hu; by apply numbers_usage_after).
  unfold fields_after in Hf. rewrite Hgame in Hf.
  destruct (bool_decide (window o ≠ current_game st)) eqn:Hdiff.
  - injection Hf as Hc Hs.
    destruct (window o) as [w|] eqn:Hw; [|done].
    exists w, (now o). split; [done|]. split; [done|].
    split; [apply opened_of_fields; [done|by apply is_game_nonempty|done..]|].
    rewrite Hu, (total_usage_after st o t s); [lia|].
    unfold recorded_by. by rewrite Hw, Hgame, Hdiff.
  - injection Hf as Hc Hs. exists t, s. split; [done|]. split; [done|].
    split; [by rewrite (opened_fields st st')|].
    rewrite Hu. unfold usage_after, recorded_by. by rewrite Hgame, Hdiff.
Qed.

Lemma closing_turn_balance st o last_save t s :
  numbers (usage st) → opened st = Some (t, s) →
  is_game (window o) = false →
  ∃ ls' st',
    track_step o last_save st = Ret ls' st' ∧
    opened st' = None ∧
    total (usage st') = total (usage st) + (now o - s).
Proof.
  intros Hn Ho Hgame.
  destruct (track_step_spec st o last_save Hn) as (ls' & st' & E & Hu & Hf & _).
  exists ls', st'. split; [done|].
  unfold fields_after in Hf. rewrite Hgame, Ho in Hf. injection Hf as Hc Hs.
  split; [unfold opened; by rewrite Hc|].
  rewrite Hu. apply (total_usage_after st o t s).
  unfold recorded_by. by rewrite Hgame.
Qed.

Lemma game_turns_then_close mids oc :
  is_game (window oc) = false →
  ∀ last_save st t s,
    numbers (usage st) → opened st = Some (t, s) →
    Forall (λ o, is_game (window o) = true ∧ now o ≠ 0) mids →
    ∃ st', track_loop (mids ++ [oc]) last_save st = Raise KeyboardInterrupt st' ∧
           opened st' = None ∧
           total (usage st') = total (usage st) + (now oc - s).
Proof.
  intros Hclose. induction mids as [|o mids IH]; intros ls st t s Hn Ho Hmids.
  - destruct (closing_turn_balance st oc ls t s Hn Ho Hclose)
      as (ls' & st' & E & Ho' & Ht').
    exists st'. simpl. unfold bind. by rewrite E.
  - apply Forall_cons in Hmids as [[Hgame Hnow] Hmids].
    destruct (game_turn_balance st o ls t s Hn Ho Hgame Hnow)
      as (ls1 & st1 & t1 & s1 & E & Hn1 & Ho1 & Hbal).
    destruct (IH ls1 st1 t1 s1 Hn1 Ho1 Hmids) as (st' & E' & Ho' & Ht').
    exists st'. simpl. unfold bind. rewrite E. split; [done|].
    split; [done|]. lia.
Qed.

(** X7. No gap and no overlap between sessions that follow one another:
    from a tracker with no session, over turns that all show a game
    (the same or another one at each turn), each at an instant other than
    zero, followed by a turn that shows no game, the seconds of the store
    grow by exactly the time between the first and the last of these
    turns, and no session is left open. *)
Theorem back_to_back_sessions_add_the_elapsed_time st o1 mids oc last_save :
  numbers (usage st) → current_game st = None →
  is_game (window o1) = true → now o1 ≠ 0 →
  Forall (λ o, is_game (window o) = true ∧ now o ≠ 0) mids →
  is_game (window oc) = false →
  ∃ st', track_loop (o1 :: mids ++ [oc]) last_save st =
           Raise KeyboardInterrupt st' ∧
         opened st' = None ∧
         total (usage st') = total (usage st) + (now oc - now o1).
Proof.
  intros Hn Hidle Hgame1 Hnow1 Hmids Hclose.
  destruct (track_step_spec st o1 last_save Hn) as (ls1 & st1 & E & Hu & Hf & _).
  assert (opened st = None) as Ho by (unfold opened; by rewrite Hidle).
  unfold fields_after in Hf. rewrite Hgame1, Hidle in Hf.
  destruct (window o1) as [w|] eqn:Hw; [|done].
  rewrite bool_decide_true in Hf by done. injection Hf as Hc Hs.
  assert (usage st1 = usage st) as Hu1.
  { rewrite Hu. unfold usage_after, recorded_by.
    rewrite Hw, Hgame1, Hidle, bool_decide_true by done. by rewrite Ho. }
  destruct (game_turns_then_close mids oc Hclose ls1 st1 w (now o1))
    as (st' & E' & Ho' & Ht'); [by rewrite Hu1| |done|].
  { apply opened_of_fields; [done|by apply is_game_nonempty|done..]. }
  exists st'. cbn [track_loop app]. unfold bind. rewrite E.
  split; [done|]. split; [done|]. by rewrite Ht', Hu1.
Qed.

End BalanceFacts.

(** ** Leaves that are no numbers *)

Section TypeErrorFacts.
Context {UD : UnicodeData}.

Lemma observe_type_error st o t s v :
  recorded_by o st = Some (t, s) →
  leaf (usage st) (today o) t = Some v → numeric v = false →
  observe o st = Raise TypeError st.
Proof.
  intros Hr Hleaf Hv. unfold recorded_by in Hr. unfold observe.
  destruct (is_game (window o)).
  - unfold bind at 1. unfold get at 1.
    destruct (bool_decide (window o ≠ current_game st)); [|done].
    unfold bind at 1. rewrite open_session_opened, Hr. unfold bind at 1.
    by rewrite (record_session_type_error st _ _ _ v Hleaf Hv).
  - unfold bind at 1. rewrite open_session_opened, Hr. unfold bind at 1.
    by rewrite (record_session_type_error st _ _ _ v Hleaf Hv).
Qed.

(** X8. A leaf that is no number stops the program: when a turn has to
    record a session on such a leaf (loaded from the file), the
    [TypeError] leaves [track] without [shutdown] being run; nothing is
    recorded, saved or reported, and the time of the session is lost. *)
Theorem non_number_leaf_stops_the_run t0 o rest sd st t s v :
  recorded_by o st = Some (t, s) →
  leaf (usage st) (today o) t = Some v → numeric v = false →
  track t0 (o :: rest) sd st =
  Raise TypeError (emit Say_detecting (emit Say_started st)).
Proof.
  intros Hr Hleaf Hv.
  set (st0 := emit Say_detecting (emit Say_started st)).
  assert (observe o st0 = Raise TypeError st0) as E
    by (by apply (observe_type_error st0 o t s v)).
  unfold track, bind, print, modify, try_except. fold st0.
  cbn [track_loop]. unfold bind, track_step, bind. by rewrite E.
Qed.

Lemma all_numeric_false (u : store) (d g : pystr) (v : pyval) :
  leaf u d g = Some v → numeric v = false → all_numeric u = false.
Proof.
  intros Hleaf Hv. destruct (all_numeric u) eqn:E; [|done].
  unfold all_numeric in E. rewrite forallb_forall in E.
  unfold leaf in Hleaf. destruct (u !! d) as [gm|] eqn:Hd; [|done].
  simpl in Hleaf.
  assert (In (d, gm) (map_to_list u)) as Hin
    by (apply list_elem_of_In; by apply elem_of_map_to_list).
  specialize (E (d, gm) Hin). simpl in E. rewrite forallb_forall in E.
  assert (In (g, v) (map_to_list gm)) as Hin'
    by (apply list_elem_of_In; by apply elem_of_map_to_list).
  specialize (E (g, v) Hin'). simpl in E. congruence.
Qed.

(** X9. [shutdown] saves before it reports: with no session open and a
    leaf that is no number somewhere in the store, [shutdown] raises the
    [TypeError] of the report only after its one call of [save_data], so
    the store has been written when the write goes through. *)
Theorem report_failure_comes_after_the_save st sd d g v :
  opened st = None →
  leaf (usage st) d g = Some v → numeric v = false →
  ∃ st', shutdown sd st = Raise TypeError st' ∧
         usage st' = usage st ∧
         flushes (trace st') = S (flushes (trace st)) ∧
         (stop_write sd = Written → disk st' = Content (dump (usage st))).
Proof.
  intros Ho Hleaf Hv. unfold shutdown. unfold bind at 1.
  rewrite open_session_opened, Ho. unfold bind at 1. unfold ret at 1.
  destruct (save_data_spec (stop_write sd) st) as (st1 & E & _ & _ & Hu & Hf & Hd).
  unfold bind at 1. rewrite E. unfold bind at 1.
  unfold show_stats, bind, get. rewrite Hu.
  rewrite (all_numeric_false (usage st) d g v Hleaf Hv).
  by exists st1.
Qed.

End TypeErrorFacts.

(** ** The report *)

Section ReportFacts.
Context {UD : UnicodeData}.

#[local] Instance by_date_desc_total : Total by_date_desc.
Proof.
  intros x y. unfold by_date_desc.
  destruct (decide (lexico x.1 y.1)) as [H|H]; [right|by left].
  intros H'. exact (irreflexivity lexico x.1 (transitivity H H')).
Qed.

#[local] Instance by_date_desc_trans : Transitive by_date_desc.
Proof.
  intros x y z Hxy Hyz Hxz. unfold by_date_desc in *.
  destruct (trichotomyT lexico y.1 z.1) as [[H|H]|H]; [done| |].
  - apply Hxy. by rewrite H.
  - apply Hxy. by transitivity z.1.
Qed.

#[local] Instance by_duration_desc_total : Total by_duration_desc.
Proof. intros x y. unfold by_duration_desc. lia. Qed.

#[local] Instance by_duration_desc_trans : Transitive by_duration_desc.
Proof. intros x y z. unfold by_duration_desc. lia. Qed.

Lemma StronglySorted_strict {A} (R R' : relation A) (l : list A) :
  (∀ x y, R x y → x ≠ y → R' x y) →
  NoDup l → StronglySorted R l → StronglySorted R' l.
Proof.
  intros HR Hnd Hs. induction Hs as [|x l Hs IH Hx]; [constructor|].
  apply NoDup_cons in Hnd as [Hnx Hnd]. constructor; [by apply IH|].
  rewrite List.Forall_forall in Hx. apply List.Forall_forall. intros y Hy.
  apply HR; [by apply Hx|]. intros ->. apply Hnx. by apply list_elem_of_In.
Qed.

Lemma hours_le a b : a ≤ b → Qle (hours a) (hours b).
Proof. intros H. unfold hours, Qle. simpl. lia. Qed.

Lemma report_dates (u : store) :
  line_date <$> (report u).1 = (merge_sort by_date_desc (map_to_list u)).*1.
Proof.
  unfold report. simpl. rewrite <- list_fmap_compose. by apply list_fmap_ext.
Qed.

Lemma dates_strictly_descending (u : store) :
  StronglySorted (λ a b : pystr, lexico b a)
                 (merge_sort by_date_desc (map_to_list u)).*1.
Proof.
  apply (StronglySorted_strict (λ a b : pystr, ¬ lexico a b)).
  - intros x y Hxy Hne.
    destruct (trichotomyT lexico x y) as [[H|H]|H]; done.
  - rewrite (merge_sort_Permutation by_date_desc (map_to_list u)).
    apply NoDup_fst_map_to_list.
  - apply (StronglySorted_fmap fst by_date_desc); [done|].
    apply StronglySorted_merge_sort; apply _.
Qed.

(** X10. The order of the report. On a store whose leaves are numbers that
    fit the range of floats ([store_fits]), [show_stats] prints the
    report of the store, and in it the dates are those of the store, each
    once, from the greatest down; under a date come the titles of that
    date, each once with its seconds over 3600, from the longest down;
    the total of the date is the sum of its seconds over 3600. *)
Theorem report_lists_dates_then_durations_descending st :
  numbers (usage st) → store_fits (usage st) = true →
  show_stats st = Ret tt (emit (Say_stats (usage st)) st) ∧
  (∀ d, d ∈ line_date <$> (report (usage st)).1 ↔ is_Some (usage st !! d)) ∧
  StronglySorted (λ a b : pystr, lexico b a)
                 (line_date <$> (report (usage st)).1) ∧
  ∀ day, day ∈ (report (usage st)).1 →
    ∃ gm, usage st !! line_date day = Some gm ∧
          line_hours day = hours (day_total gm) ∧
          line_games day ≡ₚ
            (λ gv, (gv.1, hours (num_of gv.2))) <$> map_to_list gm ∧
          StronglySorted (λ a b : pystr * Q, Qle b.2 a.2) (line_games day).
Proof.
  intros Hn _. split; [by apply show_stats_numbers|].
  generalize (usage st). clear st Hn. intros u.
  split; [|split].
  - intros d. rewrite report_dates, list_elem_of_fmap. split.
    + intros ([d' gm] & -> & Hin).
      rewrite (merge_sort_Permutation by_date_desc (map_to_list u)) in Hin.
      apply elem_of_map_to_list in Hin. by exists gm.
    + intros [gm Hgm]. exists (d, gm). split; [done|].
      rewrite (merge_sort_Permutation by_date_desc (map_to_list u)).
      by apply elem_of_map_to_list.
  - rewrite report_dates. apply dates_strictly_descending.
  - intros day Hday. unfold report in Hday. simpl in Hday.
    apply list_elem_of_fmap in Hday as ([d gm] & -> & Hin).
    rewrite (merge_sort_Permutation by_date_desc (map_to_list u)) in Hin.
    apply elem_of_map_to_list in Hin. exists gm. simpl.
    split; [done|]. split; [done|]. split.
    + by rewrite (merge_sort_Permutation by_duration_desc (map_to_list gm)).
    + apply (StronglySorted_fmap _ by_duration_desc).
      * intros x y Hxy. simpl. by apply hours_le.
      * apply StronglySorted_merge_sort; apply _.
Qed.

Lemma foldl_hours (l : list day_lines) (q : Q) :
  Qeq (foldl (λ total_hours d, Qplus total_hours (line_hours d)) q l)
      (Qplus q (foldr (λ d acc, Qplus (line_hours d) acc) 0%Q l)).
Proof.
  revert q. induction l as [|d l IH]; intros q; simpl.
  - by rewrite Qplus_0_r.
  - rewrite IH. by rewrite Qplus_assoc.
Qed.

Lemma hours_plus a b : Qeq (Qplus (hours a) (hours b)) (hours (a + b)).
Proof. unfold hours, Qeq, Qplus. simpl. lia. Qed.

Lemma foldr_hours (l : list (pystr * gmap pystr pyval)) :
  Qeq (foldr (λ d acc, Qplus (line_hours d) acc) 0%Q (day_report <$> l))
      (hours (foldr (λ kv acc, day_total kv.2 + acc) 0 l)).
Proof.
  induction l as [|kv l IH]; simpl; [done|].
  rewrite IH. apply hours_plus.
Qed.

Lemma report_total (u : store) : Qeq (report u).2 (hours (total u)).
Proof.
  unfold report. simpl. rewrite foldl_hours, Qplus_0_l, foldr_hours.
  unfold total, msum.
  by rewrite (foldr_sum_perm (λ kv : pystr * gmap pystr pyval, day_total kv.2)
                _ _ (merge_sort_Permutation by_date_desc (map_to_list u))).
Qed.

(** X11. A session recorded shows in the report: on a store whose leaves
    are numbers that fit the range of floats ([store_fits]),
    [record_session] leaves a store of numbers, and the total of the
    report that [show_stats] would then print is the total before plus
    the duration over 3600, whatever the date and the title. *)
Theorem recording_raises_the_reported_total st date game d :
  numbers (usage st) → store_fits (usage st) = true →
  ∃ st', record_session date game d st = Ret tt st' ∧
         numbers (usage st') ∧
         Qeq (report (usage st')).2
             (Qplus (report (usage st)).2 (hours d)).
Proof.
  intros Hn _.
  destruct (numbers_seconds (usage st) date game Hn) as [x Hx].
  eexists. split; [by apply (record_session_num st date game d x)|].
  simpl. split; [by apply numbers_put|].
  transitivity (hours (total (usage st) + d)).
  - etransitivity; [apply report_total|]. rewrite total_put, Hx. simpl.
    by replace (total (usage st) - x + (x + d)) with (total (usage st) + d)
      by lia.
  - symmetry. etransitivity; [|apply hours_plus].
    apply Qplus_comp; [apply report_total|reflexivity].
Qed.

End ReportFacts.

(** ** A session that stays open *)

Section OpenSessionFacts.
Context {UD : UnicodeData}.



End OpenSessionFacts.

(** ** Titles around a game title *)

Section DecorationFacts.
Context {UD : UnicodeData}.

(** X13. The classifier looks nowhere but inside the title: a title that
    [is_game] accepts is accepted with any text before and after it, so a
    window whose title quotes the title of a game (a browser tab, a file
    name) is tracked as a game. *)
Theorem is_game_with_text_around t pre post :
  is_game (Some t) = true → is_game (Some (pre ++ t ++ post)) = true.
Proof.
  rewrite !is_game_keyword. intros (k & Hk & p & q & Hp).
  exists k. split; [done|].
  exists (str_lower pre ++ p), (q ++ str_lower post).
  rewrite !str_lower_app, Hp. by rewrite <- !app_assoc.
Qed.

End DecorationFacts.

(** ** The theorems of this part at concrete inputs *)

Lemma numbers_empty : numbers ∅.
Proof. intros d g v. by rewrite leaf_empty. Qed.

Lemma dota_document_well_formed :
  well_formed (PDict [(lit "2024-01-01", PDict [(lit "Dota 2", PNum 120)])]).
Proof.
  eexists. split; [reflexivity|]. split; [apply NoDup_singleton|].
  repeat constructor. eexists. split; [reflexivity|].
  split; [apply NoDup_singleton|]. repeat constructor. by eexists.
Qed.

Lemma dota_file_well_formed (doc : pyval) :
  Content (PDict [(lit "2024-01-01", PDict [(lit "Dota 2", PNum 120)])]) =
    Content doc → well_formed doc.
Proof. intros [= <-]. apply dota_document_well_formed. Qed.

Lemma dota_file_fits (doc : pyval) :
  Content (PDict [(lit "2024-01-01", PDict [(lit "Dota 2", PNum 120)])]) =
    Content doc →
  well_formed doc ∧ store_fits (load_all (games_of doc) ∅) = true.
Proof. intros [= <-]. split; [apply dota_document_well_formed|reflexivity]. Qed.

Lemma run_ends_with_numbers_saved_witness :
  let f := Content (PDict [(lit "2024-01-01", PDict [(lit "Dota 2", PNum 120)])]) in
  let ticks := [turn_at (Some (lit "Dota 2")) 15; turn_at None 400] in
  (∀ doc, f = Content doc →
          well_formed doc ∧ store_fits (load_all (games_of doc) ∅) = true) ∧
  ∃ st', main f 0 ticks (stop_at 460) = Ret tt st' ∧
         numbers (usage st') ∧
         (stop_write (stop_at 460) = Written →
          disk st' = Content (dump (usage st'))).
Proof.
  simpl. split; [exact dota_file_fits|].
  exact (run_ends_with_numbers_saved
           (Content (PDict [(lit "2024-01-01", PDict [(lit "Dota 2", PNum 120)])]))
           0 [turn_at (Some (lit "Dota 2")) 15; turn_at None 400] (stop_at 460)
           dota_file_fits).
Defined.

Lemma restart_resumes_the_store_witness :
  let f := Content (PDict [(lit "2024-01-01", PDict [(lit "Dota 2", PNum 120)])]) in
  let ticks := [turn_at (Some (lit "Dota 2")) 15; turn_at None 400] in
  ((∀ doc, f = Content doc → well_formed doc) ∧
   stop_write (stop_at 460) = Written) ∧
  ∃ st' st'', main f 0 ticks (stop_at 460) = Ret tt st' ∧
              new_tracker (disk st') = Ret tt st'' ∧
              usage st'' = usage st' ∧
              session_of st'' = Idle.
Proof.
  simpl. split; [split; [exact dota_file_well_formed|reflexivity]|].
  exact (restart_resumes_the_store
           (Content (PDict [(lit "2024-01-01", PDict [(lit "Dota 2", PNum 120)])]))
           0 [turn_at (Some (lit "Dota 2")) 15; turn_at None 400] (stop_at 460)
           dota_file_well_formed eq_refl).
Defined.

Lemma valorant_is_tracked_as_a_game :
  tracks_a_game (tracking (lit "Valorant") 1000).
Proof. intros t [= <-]. reflexivity. Qed.

Lemma only_games_get_time_witness :
  let st := tracking (lit "Valorant") 1000 in
  let ticks := [turn_at (Some (lit "Notepad")) 1015] in
  (numbers (usage st) ∧ tracks_a_game st) ∧
  ∃ st', track 1000 ticks (stop_at 1100) st = Ret tt st' ∧
         ∀ d g, leaf (usage st') d g ≠ leaf (usage st) d g →
                is_game (Some g) = true.
Proof.
  simpl. split; [split; [exact numbers_empty|exact valorant_is_tracked_as_a_game]|].
  exact (only_games_get_time 1000 [turn_at (Some (lit "Notepad")) 1015]
           (stop_at 1100) (tracking (lit "Valorant") 1000)
           numbers_empty valorant_is_tracked_as_a_game).
Defined.

Lemma valorant_started_before (s : Z) :
  start_time (tracking (lit "Valorant") 1000) = Some s → s ≤ 1000.
Proof. intros [= <-]. lia. Qed.

Lemma sample_clock :
  never_backwards 1000 [turn_at (Some (lit "Notepad")) 1015] (stop_at 1100).
Proof. simpl. lia. Qed.

Lemma leaves_only_grow_witness :
  let st := tracking (lit "Valorant") 1000 in
  let ticks := [turn_at (Some (lit "Notepad")) 1015] in
  (numbers (usage st) ∧ (∀ s, start_time st = Some s → s ≤ 1000) ∧
   never_backwards 1000 ticks (stop_at 1100)) ∧
  ∃ st', track 1000 ticks (stop_at 1100) st = Ret tt st' ∧
         leaves_grow (usage st) (usage st').
Proof.
  split; [split; [exact numbers_empty|split;
                  [exact valorant_started_before|exact sample_clock]]|].
  exact (leaves_only_grow 1000 [turn_at (Some (lit "Notepad")) 1015]
           (stop_at 1100) (tracking (lit "Valorant") 1000)
           numbers_empty valorant_started_before sample_clock).
Defined.

Lemma periodic_saves_are_spaced_witness :
  let st := tracking (lit "Valorant") 1000 in
  let ticks := [turn_at (Some (lit "Notepad")) 1015] in
  (numbers (usage st) ∧ never_backwards 1000 ticks (stop_at 1100)) ∧
  ∃ st' k, track 1000 ticks (stop_at 1100) st = Ret tt st' ∧
           flushes (trace st') = (flushes (trace st) + k + 1)%nat ∧
           300 * Z.of_nat k ≤ stop_now (stop_at 1100) - 1000.
Proof.
  split; [split; [exact numbers_empty|exact sample_clock]|].
  exact (periodic_saves_are_spaced 1000 [turn_at (Some (lit "Notepad")) 1015]
           (stop_at 1100) (tracking (lit "Valorant") 1000)
           numbers_empty sample_clock).
Defined.

Lemma sample_game_turns :
  Forall (λ o, is_game (window o) = true ∧ now o ≠ 0)
         [turn_at (Some (lit "Steam")) 30; turn_at (Some (lit "Dota 2")) 45].
Proof. repeat constructor; discriminate. Qed.

Lemma back_to_back_sessions_add_the_elapsed_time_witness :
  let st := blank NoFile in
  let o1 := turn_at (Some (lit "Steam")) 15 in
  let mids := [turn_at (Some (lit "Steam")) 30; turn_at (Some (lit "Dota 2")) 45] in
  let oc := turn_at (Some (lit "Notepad")) 60 in
  (numbers (usage st) ∧ current_game st = None ∧
   is_game (window o1) = true ∧ now o1 ≠ 0 ∧
   Forall (λ o, is_game (window o) = true ∧ now o ≠ 0) mids ∧
   is_game (window oc) = false) ∧
  ∃ st', track_loop (o1 :: mids ++ [oc]) 0 st = Raise KeyboardInterrupt st' ∧
         opened st' = None ∧
         total (usage st') = total (usage st) + (now oc - now o1).
Proof.
  assert (now (turn_at (Some (lit "Steam")) 15) ≠ 0) as H15 by discriminate.
  split.
  - split; [exact numbers_empty|]. split; [reflexivity|].
    split; [reflexivity|]. split; [exact H15|].
    split; [exact sample_game_turns|reflexivity].
  - exact (back_to_back_sessions_add_the_elapsed_time
             (blank NoFile) (turn_at (Some (lit "Steam")) 15)
             [turn_at (Some (lit "Steam")) 30; turn_at (Some (lit "Dota 2")) 45]
             (turn_at (Some (lit "Notepad")) 60) 0
             numbers_empty eq_refl eq_refl H15 sample_game_turns eq_refl).
Defined.

Lemma non_number_leaf_stops_the_run_witness :
  let day := lit "2024-01-02" in
  let valorant := lit "Valorant" in
  let st := set_usage (put ∅ day valorant (PStr (lit "an hour")))
                      (tracking valorant 1000) in
  let o := turn_at (Some (lit "Notepad")) 1015 in
  (recorded_by o st = Some (valorant, 1000) ∧
   leaf (usage st) (today o) valorant = Some (PStr (lit "an hour")) ∧
   numeric (PStr (lit "an hour")) = false) ∧
  track 1000 [o] (stop_at 1100) st =
    Raise TypeError (emit Say_detecting (emit Say_started st)).
Proof.
  assert (leaf (put ∅ (lit "2024-01-02") (lit "Valorant") (PStr (lit "an hour")))
               (lit "2024-01-02") (lit "Valorant") =
          Some (PStr (lit "an hour"))) as Hleaf by apply leaf_put_eq.
  split; [split; [reflexivity|split; [exact Hleaf|reflexivity]]|].
  exact (non_number_leaf_stops_the_run 1000 (turn_at (Some (lit "Notepad")) 1015)
           [] (stop_at 1100)
           (set_usage (put ∅ (lit "2024-01-02") (lit "Valorant")
                           (PStr (lit "an hour")))
                      (tracking (lit "Valorant") 1000))
           (lit "Valorant") 1000 (PStr (lit "an hour"))
           eq_refl Hleaf eq_refl).
Defined.

Lemma report_failure_comes_after_the_save_witness :
  let day := lit "2024-01-02" in
  let valorant := lit "Valorant" in
  let st := set_usage (put ∅ day valorant (PStr (lit "an hour")))
                      (blank NoFile) in
  (opened st = None ∧
   leaf (usage st) day valorant = Some (PStr (lit "an hour")) ∧
   numeric (PStr (lit "an hour")) = false) ∧
  ∃ st', shutdown (stop_at 1100) st = Raise TypeError st' ∧
         usage st' = usage st ∧
         flushes (trace st') = S (flushes (trace st)) ∧
         (stop_write (stop_at 1100) = Written →
          disk st' = Content (dump (usage st))).
Proof.
  assert (leaf (put ∅ (lit "2024-01-02") (lit "Valorant") (PStr (lit "an hour")))
               (lit "2024-01-02") (lit "Valorant") =
          Some (PStr (lit "an hour"))) as Hleaf by apply leaf_put_eq.
  split; [split; [reflexivity|split; [exact Hleaf|reflexivity]]|].
  exact (report_failure_comes_after_the_save
           (set_usage (put ∅ (lit "2024-01-02") (lit "Valorant")
                           (PStr (lit "an hour")))
                      (blank NoFile))
           (stop_at 1100) (lit "2024-01-02") (lit "Valorant")
           (PStr (lit "an hour")) eq_refl Hleaf eq_refl).
Defined.

Lemma sample_store_numbers :
  numbers (put (put ∅ (lit "2024-01-01") (lit "Dota 2") (PNum 120))
               (lit "2024-01-02") (lit "Valorant") (PNum 60)).
Proof. apply numbers_put, numbers_put, numbers_empty. Qed.

Lemma report_lists_dates_then_durations_descending_witness :
  let u := put (put ∅ (lit "2024-01-01") (lit "Dota 2") (PNum 120))
               (lit "2024-01-02") (lit "Valorant") (PNum 60) in
  let st := set_usage u (blank NoFile) in
  (numbers (usage st) ∧ store_fits (usage st) = true) ∧
  show_stats st = Ret tt (emit (Say_stats (usage st)) st) ∧
  (∀ d, d ∈ line_date <$> (report (usage st)).1 ↔ is_Some (usage st !! d)) ∧
  StronglySorted (λ a b : pystr, lexico b a)
                 (line_date <$> (report (usage st)).1) ∧
  ∀ day, day ∈ (report (usage st)).1 →
    ∃ gm, usage st !! line_date day = Some gm ∧
          line_hours day = hours (day_total gm) ∧
          line_games day ≡ₚ
            (λ gv, (gv.1, hours (num_of gv.2))) <$> map_to_list gm ∧
          StronglySorted (λ a b : pystr * Q, Qle b.2 a.2) (line_games day).
Proof.
  split; [split; [exact sample_store_numbers|reflexivity]|].
  exact (report_lists_dates_then_durations_descending
           (set_usage (put (put ∅ (lit "2024-01-01") (lit "Dota 2") (PNum 120))
                           (lit "2024-01-02") (lit "Valorant") (PNum 60))
                      (blank NoFile))
           sample_store_numbers eq_refl).
Defined.

Lemma recording_raises_the_reported_total_witness :
  let u := put (put ∅ (lit "2024-01-01") (lit "Dota 2") (PNum 120))
               (lit "2024-01-02") (lit "Valorant") (PNum 60) in
  let st := set_usage u (blank NoFile) in
  (numbers (usage st) ∧ store_fits (usage st) = true) ∧
  ∃ st', record_session (lit "2024-01-02") (lit "Valorant") 45 st = Ret tt st' ∧
         numbers (usage st') ∧
         Qeq (report (usage st')).2
             (Qplus (report (usage st)).2 (hours 45)).
Proof.
  split; [split; [exact sample_store_numbers|reflexivity]|].
  exact (recording_raises_the_reported_total
           (set_usage (put (put ∅ (lit "2024-01-01") (lit "Dota 2") (PNum 120))
                           (lit "2024-01-02") (lit "Valorant") (PNum 60))
                      (blank NoFile))
           (lit "2024-01-02") (lit "Valorant") 45 sample_store_numbers eq_refl).
Defined.



Lemma is_game_with_text_around_witness :
  is_game (Some (lit "steam")) = true ∧
  is_game (Some (lit "notes on " ++ lit "steam" ++ lit " engines.txt")) = true.
Proof.
  split; [reflexivity|].
  exact (is_game_with_text_around (lit "steam") (lit "notes on ")
           (lit " engines.txt") eq_refl).
Defined.
